(** * FreeLytix: dataset, summary metrics, chart generation and accounts

    A shallow embedding of [app.py]: the start-up code that loads or
    synthesises the dataset, the chart generation routine [generate_plots],
    the two request handlers that use the dataset ([home] and [eda]), and
    the account handlers with the table of users they work on.

    Conventions of the embedding.
    - A [float64] is a primitive binary64 float; an [int64] is a [Z] reduced
      with [wrap64].
    - The process state is a [World]: the global frame [df], the content of
      the directory [PLOT_FOLDER] and the log of the file operations done on
      it.  Code runs in the state-and-exception monad [M].
    - pandas, seaborn and matplotlib are outside the repository.  What the
      code asks of them is embedded as far as it decides control flow: column
      lookups and the exceptions they raise, the three aggregates of [home].
      Rendering a figure into the bytes of a PNG file is the interface
      [Plotting]; numpy's generator is the interface [NumpyRandom]; reading
      and writing CSV text is the interface [PandasIO].  Rendering may
      raise: the aggregates and the drawing calls of a recipe refuse some
      data, and [generate_plots] catches nothing.
    - Templates are not embedded; a handler returns the context it hands to
      its template.  The handlers of the dataset and the handlers of the
      accounts are embedded apart: the former leave out the user they look
      up for the template, the latter the dataset. *)

From Stdlib Require Import ZArith Floats.
From stdpp Require Import gmap strings list sorting.

Local Open Scope string_scope.
Local Open Scope nat_scope.
Local Open Scope list_scope.

(** ** float64 and int64 helpers *)

(** Conversion of an integer to the nearest float64 (ties to even). *)
Definition Z2float (z : Z) : float :=
  SF2Prim (binary_normalize 53 1024 z 0 false).

(** [numpy.rint]: round to the nearest integer, ties to even. *)
Definition rint (x : float) : float :=
  match Prim2SF x with
  | S754_finite s m e =>
      if (0 <=? e)%Z then x else
      let d := (2 ^ (- e))%Z in
      let q := (Z.pos m / d)%Z in
      let r := (Z.pos m mod d)%Z in
      let q' := match (2 * r ?= d)%Z with
                | Lt => q
                | Gt => (q + 1)%Z
                | Eq => if Z.even q then q else (q + 1)%Z
                end in
      match q' with
      | Z.pos p => SF2Prim (binary_normalize 53 1024 (if s then Z.neg p else Z.pos p) 0 s)
      | _ => if s then (-0)%float else 0%float
      end
  | _ => x
  end.

(** [x.round(decimals)] for [decimals >= 0]: scale by a power of ten, round
    to an integer, scale back. *)
Definition np_round (decimals : nat) (x : float) : float :=
  let f := Z2float (10 ^ Z.of_nat decimals) in
  (rint (x * f) / f)%float.

(** Two's complement reduction of an integer to 64 bits. *)
Definition wrap64 (z : Z) : Z :=
  ((z + 2 ^ 63) mod 2 ^ 64 - 2 ^ 63)%Z.

(** ** The dataset *)

Abbreviation bytes := (list Byte.byte).

(** A column of a frame, by dtype.  A missing cell of an object column is
    [None]; a missing cell of a float64 column is a NaN. *)
Inductive Column : Type :=
| StrCol (vals : list (option string))
| IntCol (vals : list Z)
| FloatCol (vals : list float).

(** A frame: its columns in order, each under its label. *)
Abbreviation DataFrame := (list (string * Column)).

Definition columns (d : DataFrame) : list string := d.*1.

Fixpoint lookup_col (name : string) (d : DataFrame) : option Column :=
  match d with
  | [] => None
  | (k, c) :: rest => if String.eqb k name then Some c else lookup_col name rest
  end.

(** The frame without the column [name]. *)
Definition drop_col (name : string) (d : DataFrame) : DataFrame :=
  filter (λ kc, kc.1 ≠ name) d.

(** The columns some chart recipe of [generate_plots] refers to by name. *)
Definition required_columns : list string :=
  ["Rating"; "Total_Earning"; "Gender"; "Price"; "Review_Count"; "Level"; "Category"].

Definition has_columns (names : list string) (d : DataFrame) : bool :=
  forallb (λ c, bool_decide (is_Some (lookup_col c d))) names.

(** A valid dataset has every required column. *)
Definition valid (d : DataFrame) : Prop := has_columns required_columns d = true.

(** ** Exceptions *)

Inductive Exn : Type :=
| KeyError (key : string)
| ValueError (var : string)
| TypeError (msg : string)
| AttributeError (attr : string)
| FileNotFoundError (path : string)
| LinAlgError.

(** ** Series aggregates used by [home] *)

(** Values of [l] without repetition with respect to [eqb]. *)
Fixpoint unique {A} (eqb : A → A → bool) (l : list A) : list A :=
  match l with
  | [] => []
  | x :: rest => x :: List.filter (λ y, negb (eqb x y)) (unique eqb rest)
  end.

(** [Series.dropna] on a float64 column. *)
Definition dropna (l : list float) : list float :=
  List.filter (λ x, negb (PrimFloat.is_nan x)) l.

(** [Series.nunique()]: the number of distinct values, missing cells not
    counted. *)
Definition nunique (c : Column) : nat :=
  match c with
  | StrCol vals => length (unique String.eqb (omap id vals))
  | IntCol vals => length (unique Z.eqb vals)
  | FloatCol vals => length (unique PrimFloat.eqb (dropna vals))
  end.

(** A scalar result of an aggregate. *)
Inductive Scalar : Type :=
| SInt (z : Z)
| SFloat (x : float)
| SStr (s : string).

(** numpy's pairwise summation of a contiguous float64 array.  Fewer than
    eight values are added one after the other, starting from zero. *)
Definition sum_in_order (start : float) (l : list float) : float :=
  fold_left PrimFloat.add l start.

(** Eight accumulators take the values in turn, [rounds] times. *)
Fixpoint accumulate8 (rounds : nat) (r l : list float) : list float * list float :=
  match rounds with
  | 0 => (r, l)
  | S n => accumulate8 n (zip_with PrimFloat.add r (take 8 l)) (drop 8 l)
  end.

(** A block of 8 to 128 values: the accumulators are added up in pairs and
    the values left over after the last full round are added in order. *)
Definition block_sum (l : list float) : float :=
  let '(r, rest) := accumulate8 (length l / 8 - 1) (take 8 l) (drop 8 l) in
  match r with
  | [r0; r1; r2; r3; r4; r5; r6; r7] =>
      sum_in_order (((r0 + r1) + (r2 + r3)) + ((r4 + r5) + (r6 + r7)))%float rest
  | _ => sum_in_order 0%float l
  end.

Definition PW_BLOCKSIZE : nat := 128.

(** A longer array is cut in two at a multiple of eight; [depth] bounds the
    number of cuts and is never used up when it is the length. *)
Fixpoint pairwise_sum (depth : nat) (l : list float) : float :=
  let n := length l in
  if n <? 8 then sum_in_order 0%float l
  else if n <=? PW_BLOCKSIZE then block_sum l
  else
    match depth with
    | 0 => block_sum l
    | S depth' =>
        let n2 := n / 2 - (n / 2) mod 8 in
        (pairwise_sum depth' (take n2 l) + pairwise_sum depth' (drop n2 l))%float
    end.

(** [values.sum()] of a float64 array: the reduction starts from zero and
    adds the pairwise sum of the array. *)
Definition fsum (l : list float) : float :=
  (0 + pairwise_sum (length l) l)%float.

(** [values.sum(dtype=float64)] of an int64 array: the values pass through
    the cast buffer, 8192 at a time, and each buffer is added to the
    result by its pairwise sum. *)
Definition BUFSIZE : nat := 8 * 1024.

Fixpoint sum_buffered (buffers : nat) (acc : float) (l : list float) : float :=
  match buffers, l with
  | _, [] | 0, _ => acc
  | S n, _ =>
      let buffer := take BUFSIZE l in
      sum_buffered n (acc + pairwise_sum (length buffer) buffer)%float
                   (drop BUFSIZE l)
  end.

Definition fsum_cast (l : list Z) : float :=
  sum_buffered (length l) 0%float (Z2float <$> l).

(** Missing cells replaced by zero, as the NaN-skipping sum does. *)
Definition fillna0 (l : list float) : list float :=
  (λ x, if PrimFloat.is_nan x then 0%float else x) <$> l.

(** [Series.sum()].  Missing float cells count as zero; an int64 sum wraps;
    an object column is added up with [+], which concatenates strings and
    fails on a missing cell (filled with the integer 0). *)
Definition Series_sum (c : Column) : Exn + Scalar :=
  match c with
  | IntCol vals => inr (SInt (wrap64 (fold_left Z.add vals 0%Z)))
  | FloatCol vals => inr (SFloat (fsum (fillna0 vals)))
  | StrCol [] => inr (SInt 0)
  | StrCol vals =>
      match mapM id vals with
      | Some strs => inr (SStr (String.concat EmptyString strs))
      | None => inl (TypeError "can only concatenate str (not int) to str")
      end
  end.

(** What [Series.mean()] returns: a numpy float64, or, when there is no
    value to average, the constant [numpy.nan], which is a plain Python
    float. *)
Inductive Mean : Type :=
| NpFloat64 (x : float)
| PyNaN.

(** [Series.mean()].  Missing cells are skipped; the values of an int64
    column are added up as float64; an object column that holds a string
    cannot be averaged. *)
Definition Series_mean (c : Column) : Exn + Mean :=
  match c with
  | IntCol vals =>
      inr (match vals with
           | [] => PyNaN
           | _ => NpFloat64 (fsum_cast vals / Z2float (Z.of_nat (length vals)))
           end)
  | FloatCol vals =>
      let count := length (dropna vals) in
      inr (match count with
           | 0 => PyNaN
           | _ => NpFloat64 (fsum (fillna0 vals) / Z2float (Z.of_nat count))
           end)
  | StrCol vals =>
      match omap id vals with
      | [] => inr PyNaN
      | _ => inl (TypeError "Could not convert string to numeric")
      end
  end.

(** [m.round(decimals)] on the result of a mean: a method of numpy's
    float64 that a Python float does not have. *)
Definition round_mean (decimals : nat) (m : Mean) : Exn + float :=
  match m with
  | NpFloat64 x => inr (np_round decimals x)
  | PyNaN => inl (AttributeError "round")
  end.

(** ** The process state and its monad *)

Definition PLOT_FOLDER : string := "static".

(** A file operation on [PLOT_FOLDER]. *)
Inductive FsEvent : Type :=
| Removed (name : string)
| Written (name : string).

Record World : Type := mkWorld {
  df : DataFrame;                     (* the module-level frame *)
  plot_folder : gmap string bytes;    (* the files of PLOT_FOLDER, by name *)
  fs_log : list FsEvent               (* file operations, oldest first *)
}.

(** State and exception: a computation returns a value or raises, and
    leaves a world either way. *)
Definition M (A : Type) : Type := World → (Exn + A) * World.

Definition raise {A} (e : Exn) : M A := λ w, (inl e, w).

#[global] Instance M_ret : MRet M := λ A a w, (inr a, w).

#[global] Instance M_bind : MBind M := λ A B k m w,
  match m w with
  | (inr a, w') => k a w'
  | (inl e, w') => (inl e, w')
  end.

(** A [for] loop over a list. *)
Fixpoint for_each {A} (l : list A) (body : A → M unit) : M unit :=
  match l with
  | [] => mret tt
  | x :: rest => body x;; for_each rest body
  end.

Definition lift {A} (r : Exn + A) : M A :=
  match r with
  | inr a => mret a
  | inl e => raise e
  end.

(** *** Reading the frame *)

(** [df[name]]. *)
Definition getitem (name : string) : M Column :=
  λ w, match lookup_col name (df w) with
       | Some c => (inr c, w)
       | None => (inl (KeyError name), w)
       end.

(** [df.groupby(key)]: the grouping column is resolved at once. *)
Definition groupby (key : string) : M Column :=
  λ w, match lookup_col key (df w) with
       | Some c => (inr c, w)
       | None => (inl (KeyError key), w)
       end.

(** [grouped[val]]: selecting a column of a grouped frame. *)
Definition select (val : string) : M Column :=
  λ w, match lookup_col val (df w) with
       | Some c => (inr c, w)
       | None => (inl (KeyError ("Column not found: " +:+ val)), w)
       end.

(** [df.groupby(key)[val]]. *)
Definition groupby_select (key val : string) : M (Column * Column) :=
  k ← groupby key;
  v ← select val;
  mret (k, v).

(** A seaborn variable given by name with [data=df]: a name that is not a
    column of the frame is refused with a [ValueError]. *)
Definition sns_var (name : string) : M Column :=
  λ w, match lookup_col name (df w) with
       | Some c => (inr c, w)
       | None => (inl (ValueError name), w)
       end.

(** The whole frame, for the calls that take [df] itself. *)
Definition frame : M DataFrame := λ w, (inr (df w), w).

(** *** The directory PLOT_FOLDER *)

(** [s.endswith(suffix)]. *)
Definition endswith (s suffix : string) : bool :=
  (String.length suffix <=? String.length s)%nat &&
  String.eqb (String.substring (String.length s - String.length suffix)
                               (String.length suffix) s) suffix.

Definition is_png (name : string) : bool := endswith name ".png".

(** [os.listdir(PLOT_FOLDER)]: the entry names, in the order the map lists
    them. *)
Definition listdir : M (list string) :=
  λ w, (inr (map_to_list (plot_folder w)).*1, w).

(** [os.remove(os.path.join(PLOT_FOLDER, name))]. *)
Definition remove (name : string) : M unit :=
  λ w, match plot_folder w !! name with
       | Some _ =>
           (inr tt, {| df := df w;
                       plot_folder := delete name (plot_folder w);
                       fs_log := fs_log w ++ [Removed name] |})
       | None => (inl (FileNotFoundError name), w)
       end.

(** Writing the file [name] of PLOT_FOLDER, new or replaced. *)
Definition write_file (name : string) (content : bytes) : M unit :=
  λ w, (inr tt, {| df := df w;
                   plot_folder := <[name := content]> (plot_folder w);
                   fs_log := fs_log w ++ [Written name] |}).

(** [sorted(names)]: ascending in the order of the code points. *)
Definition sorted (names : list string) : list string :=
  merge_sort (λ a b, Is_true (String.leb a b)) names.

(** [[f for f in os.listdir(PLOT_FOLDER) if f.endswith('.png')]], sorted. *)
Definition list_plots : M (list string) :=
  files ← listdir;
  mret (sorted (List.filter is_png files)).

(** ** Figures *)

Inductive Agg : Type := agg_sum | agg_mean | agg_max.

(** What a recipe hands to the plotting library. *)
Inductive Chart : Type :=
| Pairplot (data : DataFrame)                               (* sns.pairplot(df) *)
| CorrHeatmap (data : DataFrame)                            (* sns.heatmap(df.corr(numeric_only=True)) *)
| CutBars (by_col val : Column)                             (* sum per pd.cut bin, sns.barplot *)
| SeriesBar (agg : Agg) (sort : bool) (key val : Column)    (* groupby aggregate, .plot(kind='bar') *)
| AggBarplot (agg : Agg) (sort : bool) (key val : Column)   (* groupby aggregate, sns.barplot(x=index, y=values) *)
| Boxplot (x y : Column)                                    (* sns.boxplot *)
| Barplot (x y : Column) (hue : option Column)              (* sns.barplot(data=df, ...) *)
| Countplot (x hue : Column)                                (* sns.countplot *)
| CountsKde (c : Column)                                    (* value_counts().plot(kind='kde') *)
| CountsBar (c : Column).                                   (* value_counts().plot(kind='bar') *)

Record Figure : Type := mkFigure { fig_chart : Chart; fig_title : string }.

(** The plotting library: what lies between the column lookups of a recipe
    and the file it saves.  The data are aggregated and drawn and the figure
    is encoded as the bytes of a PNG file, or one of these calls raises, as
    the density estimate does on values without spread. *)
Class Plotting : Type := render : Figure → Exn + bytes.

(** The random generator of numpy, as far as the start-up code uses it.
    Every draw takes the generator state and returns the next one. *)
Class NumpyRandom : Type := {
  RandomState : Type;
  seed : Z → RandomState;
  choice : list string → nat → RandomState → list string * RandomState;
  uniform : float → float → nat → RandomState → list float * RandomState;
  exponential : float → nat → RandomState → list float * RandomState;
  poisson : float → nat → RandomState → list Z * RandomState
}.

(** CSV text of a frame and back ([DataFrame.to_csv(index=False)],
    [pandas.read_csv]). *)
Class PandasIO : Type := {
  to_csv : DataFrame → bytes;
  read_csv : bytes → DataFrame
}.

(** ** Chart generation *)

Section Generation.
Context `{!Plotting}.

(** The drawing calls of a recipe followed by
    [plt.savefig(os.path.join(PLOT_FOLDER, name), dpi=100, bbox_inches="tight")]:
    when drawing raises, nothing is written. *)
Definition savefig (name : string) (fig : Figure) : M unit :=
  content ← lift (render fig);
  write_file name content.

(** The loop that opens [generate_plots]: every entry of PLOT_FOLDER whose
    name ends in [.png] is removed. *)
Definition clear_plots : M unit :=
  files ← listdir;
  for_each files (λ file, if is_png file then remove file else mret tt).

(** 1. Pairplot *)
Definition plot_pairplot : M unit :=
  d ← frame;
  savefig "pairplot.png" (mkFigure (Pairplot d) EmptyString).

(** 2. Correlation Heatmap *)
Definition plot_correlation_heatmap : M unit :=
  d ← frame;
  savefig "correlation_heatmap.png" (mkFigure (CorrHeatmap d) "Correlation Heatmap").

(** 3. Earnings by Rating Groups *)
Definition plot_earnings_by_rating : M unit :=
  rating ← getitem "Rating";
  earning ← select "Total_Earning";
  savefig "earnings_by_rating.png"
          (mkFigure (CutBars rating earning) "Total Earnings by Rating Groups").

(** 4. Avg Price by Gender *)
Definition plot_avg_price_gender : M unit :=
  '(k, v) ← groupby_select "Gender" "Price";
  savefig "avg_price_gender.png"
          (mkFigure (SeriesBar agg_mean false k v) "Average Price by Gender").

(** 5. Avg Review Count by Gender *)
Definition plot_avg_reviews_gender : M unit :=
  '(k, v) ← groupby_select "Gender" "Review_Count";
  savefig "avg_reviews_gender.png"
          (mkFigure (SeriesBar agg_mean true k v) "Average Review Count by Gender").

(** 6. Total Earnings by Gender *)
Definition plot_total_earnings_gender : M unit :=
  '(k, v) ← groupby_select "Gender" "Total_Earning";
  savefig "total_earnings_gender.png"
          (mkFigure (SeriesBar agg_sum true k v) "Total Earnings by Gender").

(** 7. Avg Rating by Level *)
Definition plot_avg_rating_level : M unit :=
  '(k, v) ← groupby_select "Level" "Rating";
  savefig "avg_rating_level.png"
          (mkFigure (SeriesBar agg_mean true k v) "Average Rating by Level").

(** 8. Avg Review Count by Level *)
Definition plot_avg_reviews_level : M unit :=
  '(k, v) ← groupby_select "Level" "Review_Count";
  savefig "avg_reviews_level.png"
          (mkFigure (SeriesBar agg_mean true k v) "Average Review Count by Level").

(** 9. Total Reviews by Rating *)
Definition plot_reviews_by_rating : M unit :=
  '(k, v) ← groupby_select "Rating" "Review_Count";
  savefig "reviews_by_rating.png"
          (mkFigure (SeriesBar agg_sum true k v) "Total Reviews by Rating").

(** 10. Boxplot Price by Level *)
Definition plot_price_boxplot_level : M unit :=
  x ← sns_var "Level";
  y ← sns_var "Price";
  savefig "price_boxplot_level.png"
          (mkFigure (Boxplot x y) "Price Distribution by Level").

(** 11. Boxplot Earnings by Gender *)
Definition plot_earnings_boxplot_gender : M unit :=
  x ← sns_var "Total_Earning";
  y ← sns_var "Gender";
  savefig "earnings_boxplot_gender.png"
          (mkFigure (Boxplot x y) "Earnings Distribution by Gender").

(** 12. Boxplot Reviews by Gender *)
Definition plot_reviews_boxplot_gender : M unit :=
  x ← sns_var "Review_Count";
  y ← sns_var "Gender";
  savefig "reviews_boxplot_gender.png"
          (mkFigure (Boxplot x y) "Review Count Distribution by Gender").

(** 13. Boxplot Price by Gender *)
Definition plot_price_boxplot_gender : M unit :=
  x ← sns_var "Price";
  y ← sns_var "Gender";
  savefig "price_boxplot_gender.png"
          (mkFigure (Boxplot x y) "Price Distribution by Gender").

(** 14. Rating Sum by Category: the aggregate is computed once for the
    labels and once more for the heights. *)
Definition plot_ratings_by_category : M unit :=
  '(k, v) ← groupby_select "Category" "Rating";
  _ ← groupby_select "Category" "Rating";
  savefig "ratings_by_category.png"
          (mkFigure (AggBarplot agg_sum false k v) "Total Ratings by Category").

(** 15. Avg Rating by Category *)
Definition plot_avg_rating_category : M unit :=
  x ← sns_var "Category";
  y ← sns_var "Rating";
  savefig "avg_rating_category.png"
          (mkFigure (Barplot x y None) "Average Rating by Category").

(** 16. Avg Earnings by Category *)
Definition plot_avg_earnings_category : M unit :=
  '(k, v) ← groupby_select "Category" "Total_Earning";
  savefig "avg_earnings_category.png"
          (mkFigure (SeriesBar agg_mean true k v) "Average Earnings by Category").

(** 17. Max Earnings by Category *)
Definition plot_max_earnings_category : M unit :=
  '(k, v) ← groupby_select "Category" "Total_Earning";
  savefig "max_earnings_category.png"
          (mkFigure (SeriesBar agg_max true k v) "Max Earnings by Category").

(** 18. Total Earnings by Category *)
Definition plot_total_earnings_category : M unit :=
  '(k, v) ← groupby_select "Category" "Total_Earning";
  savefig "total_earnings_category.png"
          (mkFigure (SeriesBar agg_sum true k v) "Total Earnings by Category").

(** 19. Total Reviews by Category *)
Definition plot_total_reviews_category : M unit :=
  '(k, v) ← groupby_select "Category" "Review_Count";
  savefig "total_reviews_category.png"
          (mkFigure (SeriesBar agg_sum true k v) "Total Reviews by Category").

(** 20. Avg Price by Category: again computed twice. *)
Definition plot_avg_price_category : M unit :=
  '(k, v) ← groupby_select "Category" "Price";
  _ ← groupby_select "Category" "Price";
  savefig "avg_price_category.png"
          (mkFigure (AggBarplot agg_mean true k v) "Average Price by Category").

(** 21. Countplot Category by Gender *)
Definition plot_category_gender_count : M unit :=
  x ← sns_var "Category";
  hue ← sns_var "Gender";
  savefig "category_gender_count.png"
          (mkFigure (Countplot x hue) "Category Distribution by Gender").

(** 22. Price by Category & Gender *)
Definition plot_price_category_gender : M unit :=
  x ← sns_var "Category";
  y ← sns_var "Price";
  hue ← sns_var "Gender";
  savefig "price_category_gender.png"
          (mkFigure (Barplot x y (Some hue)) "Price by Category & Gender").

(** 23. Price by Level & Gender *)
Definition plot_price_level_gender : M unit :=
  x ← sns_var "Level";
  y ← sns_var "Price";
  hue ← sns_var "Gender";
  savefig "price_level_gender.png"
          (mkFigure (Barplot x y (Some hue)) "Price by Level & Gender").

(** 24. KDE Plot Review Count *)
Definition plot_review_count_kde : M unit :=
  c ← getitem "Review_Count";
  savefig "review_count_kde.png"
          (mkFigure (CountsKde c) "KDE Distribution of Review Counts").

(** 25. Value Count of Levels *)
Definition plot_level_distribution : M unit :=
  c ← getitem "Level";
  savefig "level_distribution.png"
          (mkFigure (CountsBar c) "Distribution of Levels").

(** [generate_plots(df)]: the argument is the module-level frame, which the
    blocks read through the world.  The style settings that precede the
    first block only parametrise the rendering.  The value returned is
    [len(os.listdir(PLOT_FOLDER))]. *)
Definition generate_plots : M nat :=
  clear_plots;;
  plot_pairplot;;
  plot_correlation_heatmap;;
  plot_earnings_by_rating;;
  plot_avg_price_gender;;
  plot_avg_reviews_gender;;
  plot_total_earnings_gender;;
  plot_avg_rating_level;;
  plot_avg_reviews_level;;
  plot_reviews_by_rating;;
  plot_price_boxplot_level;;
  plot_earnings_boxplot_gender;;
  plot_reviews_boxplot_gender;;
  plot_price_boxplot_gender;;
  plot_ratings_by_category;;
  plot_avg_rating_category;;
  plot_avg_earnings_category;;
  plot_max_earnings_category;;
  plot_total_earnings_category;;
  plot_total_reviews_category;;
  plot_avg_price_category;;
  plot_category_gender_count;;
  plot_price_category_gender;;
  plot_price_level_gender;;
  plot_review_count_kde;;
  plot_level_distribution;;
  files ← listdir;
  mret (length files).

(** The blocks of [generate_plots] in order, each with the file it saves
    and the columns it refers to by name. *)
Definition recipes : list (string * list string * M unit) :=
  [ ("pairplot.png", [], plot_pairplot);
    ("correlation_heatmap.png", [], plot_correlation_heatmap);
    ("earnings_by_rating.png", ["Rating"; "Total_Earning"], plot_earnings_by_rating);
    ("avg_price_gender.png", ["Gender"; "Price"], plot_avg_price_gender);
    ("avg_reviews_gender.png", ["Gender"; "Review_Count"], plot_avg_reviews_gender);
    ("total_earnings_gender.png", ["Gender"; "Total_Earning"], plot_total_earnings_gender);
    ("avg_rating_level.png", ["Level"; "Rating"], plot_avg_rating_level);
    ("avg_reviews_level.png", ["Level"; "Review_Count"], plot_avg_reviews_level);
    ("reviews_by_rating.png", ["Rating"; "Review_Count"], plot_reviews_by_rating);
    ("price_boxplot_level.png", ["Level"; "Price"], plot_price_boxplot_level);
    ("earnings_boxplot_gender.png", ["Total_Earning"; "Gender"], plot_earnings_boxplot_gender);
    ("reviews_boxplot_gender.png", ["Review_Count"; "Gender"], plot_reviews_boxplot_gender);
    ("price_boxplot_gender.png", ["Price"; "Gender"], plot_price_boxplot_gender);
    ("ratings_by_category.png", ["Category"; "Rating"], plot_ratings_by_category);
    ("avg_rating_category.png", ["Category"; "Rating"], plot_avg_rating_category);
    ("avg_earnings_category.png", ["Category"; "Total_Earning"], plot_avg_earnings_category);
    ("max_earnings_category.png", ["Category"; "Total_Earning"], plot_max_earnings_category);
    ("total_earnings_category.png", ["Category"; "Total_Earning"], plot_total_earnings_category);
    ("total_reviews_category.png", ["Category"; "Review_Count"], plot_total_reviews_category);
    ("avg_price_category.png", ["Category"; "Price"], plot_avg_price_category);
    ("category_gender_count.png", ["Category"; "Gender"], plot_category_gender_count);
    ("price_category_gender.png", ["Category"; "Price"; "Gender"], plot_price_category_gender);
    ("price_level_gender.png", ["Level"; "Price"; "Gender"], plot_price_level_gender);
    ("review_count_kde.png", ["Review_Count"], plot_review_count_kde);
    ("level_distribution.png", ["Level"], plot_level_distribution) ].

(** The fixed catalog of artifact names. *)
Definition catalog : list string := recipes.*1.*1.

(** The number of recipes that run before the first one referring to the
    column [c]. *)
Fixpoint recipes_before (c : string) (rs : list (string * list string * M unit)) : nat :=
  match rs with
  | [] => 0
  | r :: rest => if bool_decide (c ∈ r.1.2) then 0 else S (recipes_before c rest)
  end.

Definition first_use (c : string) : nat := recipes_before c recipes.

(** ** The request handlers *)

Record ChartsContext : Type := mkCharts { plots : list string; num_plots : nat }.

(** The handler of [/charts]. *)
Definition eda : M ChartsContext :=
  found ← list_plots;
  match found with
  | [] =>
      n ← generate_plots;
      found ← list_plots;
      mret (mkCharts found n)
  | _ :: _ => mret (mkCharts found (length found))
  end.

End Generation.

Record HomeContext : Type := mkHome {
  total_users : nat;
  total_earnings : Scalar;
  avg_rating : float
}.

(** The handler of [/]. *)
Definition home : M HomeContext :=
  category ← getitem "Category";
  earning ← getitem "Total_Earning";
  total ← lift (Series_sum earning);
  rating ← getitem "Rating";
  mean ← lift (Series_mean rating);
  rounded ← lift (round_mean 2 mean);
  mret (mkHome (nunique category) total rounded).

(** ** Start-up: the dataset is read, or synthesised and persisted *)

Section Startup.
Context `{!NumpyRandom} `{!PandasIO}.

Definition DATA_PATH : string := "data/fiver_clean.csv".

Definition sample_size : nat := 1000.

Definition categories : list string :=
  ["Graphic Design"; "Digital Marketing"; "Writing"; "Video Editing"; "Programming"].
Definition genders : list string := ["Male"; "Female"].
Definition languages : list string := ["English"; "Spanish"; "French"; "German"; "Hindi"].

(** The dictionary [sample_data]: its entries are drawn in order from the
    generator [g], [n] values each. *)
Definition sample_data (n : nat) (g : RandomState) : DataFrame * RandomState :=
  let '(category, g) := choice categories n g in
  let '(rating, g) := uniform 3.5 5 n g in
  let '(earning, g) := exponential 500 n g in
  let '(gender, g) := choice genders n g in
  let '(language, g) := choice languages n g in
  let '(price, g) := uniform 5 500 n g in
  let '(orders, g) := poisson 25 n g in
  let '(response, g) := exponential 5 n g in
  ([ ("Category", StrCol (Some <$> category));
     ("Rating", FloatCol (np_round 1 <$> rating));
     ("Total_Earning", FloatCol (np_round 2 <$> earning));
     ("Gender", StrCol (Some <$> gender));
     ("Language", StrCol (Some <$> language));
     ("Price", FloatCol (np_round 2 <$> price));
     ("Orders_Completed", IntCol orders);
     ("Response_Time", FloatCol (np_round 1 <$> response)) ], g).

(** The module-level code that binds [df]: [file] is the content of the
    file at [DATA_PATH], if it exists, and [g] the state of the global
    generator.  The result is the frame, the content of the file afterwards
    and the generator afterwards. *)
Definition load_df (file : option bytes) (g : RandomState)
  : DataFrame * bytes * RandomState :=
  match file with
  | None =>
      let '(d, g') := sample_data sample_size (seed 42) in
      (d, to_csv d, g')
  | Some text => (read_csv text, text, g)
  end.

(** The world the handlers start in. *)
Definition start (file : option bytes) (g : RandomState)
                 (folder : gmap string bytes) : World :=
  mkWorld (load_df file g).1.1 folder [].

End Startup.

(** ** Concrete instances and datasets, for evaluation *)

(** [Series.value_counts()]: how often each value occurs, missing cells
    left out. *)
Definition occurrences {A} (eqb : A → A → bool) (l : list A) : list nat :=
  (λ x, length (List.filter (eqb x) l)) <$> unique eqb l.

Definition value_counts (c : Column) : list nat :=
  match c with
  | StrCol vals => occurrences String.eqb (omap id vals)
  | IntCol vals => occurrences Z.eqb vals
  | FloatCol vals => occurrences PrimFloat.eqb (dropna vals)
  end.

Definition all_equal (l : list nat) : bool :=
  match l with
  | [] => true
  | x :: rest => forallb (Nat.eqb x) rest
  end.

(** A renderer that writes the title of the figure.  It refuses what the
    density estimate of recipe 24 refuses: no count at all, a single count,
    and two or more counts that are all the same, whose covariance is
    singular. *)
Definition title_render : Plotting := λ fig,
  match fig_chart fig with
  | CountsKde c =>
      match value_counts c with
      | [] => inl (TypeError "no numeric data to plot")
      | [_] => inl (ValueError "`dataset` input should have multiple elements.")
      | counts =>
          if all_equal counts then inl LinAlgError
          else inr (String.list_byte_of_string (fig_title fig))
      end
  | _ => inr (String.list_byte_of_string (fig_title fig))
  end.

(** A generator whose state counts the values drawn and whose draws depend
    on it. *)
Definition cycling_random : NumpyRandom := {|
  RandomState := nat;
  seed := λ s, Z.to_nat s;
  choice := λ options n g,
    ((λ i, List.nth ((g + i) mod length options) options EmptyString) <$> seq 0 n,
     g + n);
  uniform := λ low high n g,
    ((λ i, if Nat.even (g + i) then low else high) <$> seq 0 n, g + n);
  exponential := λ scale n g,
    ((λ i, (scale * Z2float (Z.of_nat ((g + i) mod 3)))%float) <$> seq 0 n, g + n);
  poisson := λ lam n g, ((λ i, Z.of_nat ((g + i) mod 50)) <$> seq 0 n, g + n)
|}.

(** CSV reduced to its header line. *)
Definition header_csv : PandasIO := {|
  to_csv := λ d, String.list_byte_of_string (String.concat "," (columns d));
  read_csv := λ text, []
|}.

(** The three listings of the end-to-end scenario. *)
Definition three_listings : DataFrame :=
  [ ("Category", StrCol [Some "Writing"; Some "Writing"; Some "Design"]);
    ("Rating", FloatCol [4%float; 5%float; 3.5%float]);
    ("Total_Earning", FloatCol [100%float; 200%float; 50%float]) ].

(** Six listings with every required column, on which every recipe draws. *)
Definition six_listings : DataFrame :=
  [ ("Category", StrCol (Some <$> ["Writing"; "Writing"; "Design"; "Design";
                                    "Programming"; "Writing"]));
    ("Rating", FloatCol [4.5%float; 5%float; 3.5%float; 4%float; 4.75%float;
                         4.25%float]);
    ("Total_Earning", FloatCol [100%float; 200%float; 50%float; 75%float;
                                300%float; 125%float]);
    ("Gender", StrCol (Some <$> ["Male"; "Female"; "Female"; "Male"; "Female";
                                  "Male"]));
    ("Price", FloatCol [20%float; 35%float; 15%float; 25%float; 50%float;
                        30%float]);
    ("Review_Count", IntCol [12%Z; 12%Z; 7%Z; 5%Z; 5%Z; 5%Z]);
    ("Level", StrCol (Some <$> ["Level 1"; "Level 2"; "Level 1"; "Top Rated";
                                 "Level 2"; "Level 1"])) ].

(** Two listings with every required column; each review count occurs
    once, so the density estimate of recipe 24 has no spread to work on. *)
Definition full_listings : DataFrame :=
  [ ("Category", StrCol [Some "Writing"; Some "Design"]);
    ("Rating", FloatCol [4.5%float; 5%float]);
    ("Total_Earning", FloatCol [100%float; 50%float]);
    ("Gender", StrCol [Some "Male"; Some "Female"]);
    ("Price", FloatCol [20%float; 35%float]);
    ("Review_Count", IntCol [12%Z; 7%Z]);
    ("Level", StrCol [Some "Level 1"; Some "Level 2"]) ].

Definition empty_folder : gmap string bytes := ∅.

(** A folder that holds a style sheet next to the charts. *)
Definition css_folder : gmap string bytes := {[ "style.css" := [] ]}.

(** ** Accounts: the table of users, the session and the account handlers *)

Module Accounts.

(** The settings columns of the model [User]. *)
Record Settings : Type := mkSettings {
  dark_mode : bool;
  primary_color : string;
  card_layout : string;
  date_range : string;
  currency : string;
  language : string;
  email_alerts : bool;
  daily_summary : bool;
  weekly_summary : bool;
  show_earnings : bool;
  show_ratings : bool;
  show_orders : bool;
  show_messages : bool;
  default_page : string;
  export_format : string
}.

(** A row of the table of [User].  [username] and [email] are not nullable,
    [password_hash] is; [created_at] is a time in seconds. *)
Record User : Type := mkUser {
  id : nat;
  username : string;
  email : string;
  password_hash : option string;
  profile_picture : string;
  created_at : nat;
  is_verified : bool;
  prefs : Settings
}.

(** The column defaults of the settings. *)
Definition default_settings : Settings := {|
  dark_mode := false;
  primary_color := "#1dbf73";
  card_layout := "grid";
  date_range := "month";
  currency := "₹";
  language := "en";
  email_alerts := true;
  daily_summary := false;
  weekly_summary := true;
  show_earnings := true;
  show_ratings := true;
  show_orders := true;
  show_messages := true;
  default_page := "home";
  export_format := "excel"
|}.

#[global] Instance Settings_eq_dec : EqDecision Settings.
Proof. solve_decision. Defined.

#[global] Instance User_eq_dec : EqDecision User.
Proof. solve_decision. Defined.

(** The body of a mail, by its template: the welcome text of [register], with
    the user name and the link that confirms the token, or the single line of
    [resend_confirmation]. *)
Inductive Body : Type :=
| Welcome (name token : string)
| ClickToConfirm (token : string).

Record Message : Type := mkMessage {
  subject : string;
  recipients : list string;
  body : Body
}.

(** The session of the client: the two keys the handlers set, and the
    flashed messages (message and category) that Flask keeps in it. *)
Record Session : Type := mkSession {
  session_user_id : option nat;
  session_username : option string;
  flashes : list (string * string)
}.

Definition session_clear : Session := mkSession None None [].

(** The state the account handlers work on: the table of users in the order
    of insertion, the session of the client, the mails sent. *)
Record App : Type := mkApp {
  users : list User;
  session : Session;
  outbox : list Message
}.

Inductive Method : Type := GET | POST.

Record Request : Type := mkRequest {
  method : Method;
  form : gmap string string
}.

(** What a request finds around it: the clock, whether the mail server
    accepts the mail, the salt drawn for a new password hash. *)
Record Env : Type := mkEnv {
  now : nat;
  mail_up : bool;
  pw_salt : string
}.

Inductive Response : Type :=
| Render (template : string) (user : option User)
| Redirect (endpoint : string).

(** An exception that no handler catches. *)
Inductive AppError : Type :=
| IntegrityError      (* a constraint of the table refused at commit *)
| AttributeError.     (* an attribute or method of [None] *)

(** A handler returns a response and the state after it, or raises; an
    exception raised leaves the table as it was. *)
Abbreviation Result := (AppError + Response * App)%type.

(** werkzeug's password hashes. *)
Class PasswordHashing : Type := {
  generate_password_hash : string → string → string;   (* salt, password *)
  check_password_hash : string → string → bool         (* hash, password *)
}.

(** What loading a token gives: the payload, [SignatureExpired] or
    [BadSignature]. *)
Inductive Loaded : Type :=
| Payload (email : string)
| Expired
| Bad.

(** The timed serializer, with the salt of the confirmation links. *)
Class TimedSerializer : Type := {
  dumps : string → nat → string;          (* payload, time of signing *)
  loads : string → nat → nat → Loaded     (* token, time of loading, max_age *)
}.

(** *** The table *)

(** [User.query.filter_by(username=name).first()]; no row has a NULL name. *)
Definition find_by_username (name : option string) (table : list User) : option User :=
  match name with
  | Some n => List.find (λ u, String.eqb (username u) n) table
  | None => None
  end.

(** [User.query.filter_by(email=address).first()]. *)
Definition find_by_email (address : option string) (table : list User) : option User :=
  match address with
  | Some e => List.find (λ u, String.eqb (email u) e) table
  | None => None
  end.

(** [User.query.get(key)]. *)
Definition get (key : nat) (table : list User) : option User :=
  List.find (λ u, Nat.eqb (id u) key) table.

(** The key of the next row: one more than the largest key in the table. *)
Definition next_id (table : list User) : nat :=
  S (foldr Nat.max 0 (id <$> table)).

(** Does another row of the table hold the name or the address of [u]? *)
Definition collides (u : User) (table : list User) : bool :=
  existsb (λ v, negb (Nat.eqb (id v) (id u)) &&
                (String.eqb (username v) (username u) ||
                 String.eqb (email v) (email u))) table.

(** Committing a new row: the UNIQUE constraints on name and address. *)
Definition commit_insert (u : User) (table : list User) : AppError + list User :=
  if collides u table then inl IntegrityError else inr (table ++ [u]).

(** The table with the row of the key of [u] replaced by [u]. *)
Definition replace_row (u : User) (table : list User) : list User :=
  (λ v, if Nat.eqb (id v) (id u) then u else v) <$> table.

(** Committing a changed row. *)
Definition commit_update (u : User) (table : list User) : AppError + list User :=
  if collides u table then inl IntegrityError else inr (replace_row u table).

(** [db.session.delete(u)], committed. *)
Definition delete_row (u : User) (table : list User) : list User :=
  List.filter (λ v, negb (Nat.eqb (id v) (id u))) table.

(** *** Helpers of the handlers *)

(** [flash(message, category)]. *)
Definition flash (message category : string) (a : App) : App :=
  mkApp (users a)
        (mkSession (session_user_id (session a)) (session_username (session a))
                   (flashes (session a) ++ [(message, category)]))
        (outbox a).

Definition set_users (table : list User) (a : App) : App :=
  mkApp table (session a) (outbox a).

(** [mail.send(msg)], accepted. *)
Definition sent (msg : Message) (a : App) : App :=
  mkApp (users a) (session a) (outbox a ++ [msg]).

Definition set_password_hash (h : option string) (u : User) : User :=
  mkUser (id u) (username u) (email u) h (profile_picture u) (created_at u)
         (is_verified u) (prefs u).

Definition set_verified (b : bool) (u : User) : User :=
  mkUser (id u) (username u) (email u) (password_hash u) (profile_picture u)
         (created_at u) b (prefs u).

Definition set_identity (name address : string) (u : User) : User :=
  mkUser (id u) name address (password_hash u) (profile_picture u)
         (created_at u) (is_verified u) (prefs u).

Definition set_prefs (p : Settings) (u : User) : User :=
  mkUser (id u) (username u) (email u) (password_hash u) (profile_picture u)
         (created_at u) (is_verified u) p.

(** The user of the session, as [home], [eda] and [about] look it up. *)
Definition current_user (a : App) : option User :=
  match session_user_id (session a) with
  | Some key => get key (users a)
  | None => None
  end.

Section Handlers.
Context `{!PasswordHashing} `{!TimedSerializer}.

(** [user.check_password(password)]: neither the stored hash nor the
    password may be [None]. *)
Definition check_password (u : User) (password : option string) : AppError + bool :=
  match password_hash u, password with
  | Some h, Some p => inr (check_password_hash h p)
  | _, _ => inl AttributeError
  end.

(** The handler of [/register]. *)
Definition register (env : Env) (req : Request) (a : App) : Result :=
  match method req with
  | POST =>
      let username := form req !! "username" in
      let email := form req !! "email" in
      let password := form req !! "password" in
      let confirm_password := form req !! "confirm_password" in
      if bool_decide (password ≠ confirm_password) then
        inr (Render "register.html" None, flash "Passwords do not match" "error" a)
      else if bool_decide (is_Some (find_by_username username (users a))) then
        inr (Render "register.html" None, flash "Username already exists" "error" a)
      else if bool_decide (is_Some (find_by_email email (users a))) then
        inr (Render "register.html" None, flash "Email already exists" "error" a)
      else
        match password with
        | None => inl AttributeError
        | Some p =>
            match username, email with
            | Some name, Some address =>
                let new_user :=
                  mkUser (next_id (users a)) name address
                         (Some (generate_password_hash (pw_salt env) p))
                         "default.jpg" (now env) false default_settings in
                match commit_insert new_user (users a) with
                | inl e => inl e
                | inr table =>
                    let token := dumps address (now env) in
                    let msg := mkMessage "Confirm your FreeLytix account" [address]
                                         (Welcome name token) in
                    if mail_up env then
                      inr (Redirect "login",
                           flash "Registration successful! A confirmation email has been sent. Please verify your email to log in."
                                 "success" (sent msg (set_users table a)))
                    else
                      inr (Redirect "login",
                           flash "Registration successful, but confirmation email could not be sent. Contact support."
                                 "error" (set_users (delete_row new_user table) a))
                end
            | _, _ => inl IntegrityError
            end
        end
  | GET => inr (Render "register.html" None, a)
  end.

(** The handler of [/confirm/<token>]. *)
Definition confirm_email (env : Env) (token : string) (a : App) : Result :=
  match loads token (now env) 3600 with
  | Expired =>
      inr (Redirect "resend_confirmation",
           flash "The confirmation link has expired. Please request a new confirmation email."
                 "error" a)
  | Bad => inr (Redirect "login", flash "Invalid confirmation link." "error" a)
  | Payload address =>
      match find_by_email (Some address) (users a) with
      | None => inr (Redirect "register", flash "User not found." "error" a)
      | Some user =>
          if is_verified user then
            inr (Redirect "login",
                 flash "Account already verified. Please log in." "info" a)
          else
            inr (Redirect "login",
                 flash "Email verified successfully! You can now log in." "success"
                       (set_users (replace_row (set_verified true user) (users a)) a))
      end
  end.

(** The handler of [/login]. *)
Definition login (req : Request) (a : App) : Result :=
  match method req with
  | POST =>
      let username := form req !! "username" in
      let password := form req !! "password" in
      match find_by_username username (users a) with
      | Some user =>
          match check_password user password with
          | inl e => inl e
          | inr true =>
              if negb (is_verified user) then
                inr (Render "login.html" None,
                     flash "Please verify your email before logging in. Check your inbox (or resend verification)."
                           "error" a)
              else
                inr (Redirect "home",
                     flash "Login successful!" "success"
                           (mkApp (users a)
                                  (mkSession (Some (id user)) (Some (Accounts.username user))
                                             (flashes (session a)))
                                  (outbox a)))
          | inr false =>
              inr (Render "login.html" None,
                   flash "Invalid username or password" "error" a)
          end
      | None =>
          inr (Render "login.html" None, flash "Invalid username or password" "error" a)
      end
  | GET => inr (Render "login.html" None, a)
  end.

(** The handler of [/resend-confirmation]. *)
Definition resend_confirmation (env : Env) (req : Request) (a : App) : Result :=
  match method req with
  | POST =>
      let email := form req !! "email" in
      match email, find_by_email email (users a) with
      | Some address, Some user =>
          if is_verified user then
            inr (Redirect "login",
                 flash "Email already verified. Please log in." "info" a)
          else
            let token := dumps address (now env) in
            let msg := mkMessage "Confirm your FreeLytix account" [address]
                                 (ClickToConfirm token) in
            if mail_up env then
              inr (Redirect "login",
                   flash "A new confirmation email has been sent." "success" (sent msg a))
            else
              inr (Redirect "login",
                   flash "Could not send confirmation email. Contact support." "error" a)
      | _, _ =>
          inr (Render "resend_confirmation.html" None,
               flash "No account found with that email." "error" a)
      end
  | GET => inr (Render "resend_confirmation.html" None, a)
  end.

(** The handler of [/logout]: the session is cleared, then the message is
    flashed into the cleared session. *)
Definition logout (a : App) : Result :=
  inr (Redirect "home",
       flash "You have been logged out" "info"
             (mkApp (users a) session_clear (outbox a))).

(** The handler of [/profile]. *)
Definition profile (env : Env) (req : Request) (a : App) : Result :=
  match session_user_id (session a) with
  | None =>
      inr (Redirect "login", flash "Please log in to access this page" "error" a)
  | Some key =>
      let user := get key (users a) in
      match method req with
      | POST =>
          match user with
          | None => inl AttributeError
          | Some u =>
              let username := form req !! "username" in
              let email := form req !! "email" in
              let new_password := form req !! "new_password" in
              let '(u1, a1) :=
                match new_password with
                | Some p =>
                    if bool_decide (p = EmptyString) then (u, a)
                    else if bool_decide (new_password = form req !! "confirm_password") then
                      (set_password_hash (Some (generate_password_hash (pw_salt env) p)) u,
                       flash "Password updated successfully" "success" a)
                    else (u, flash "Passwords do not match" "error" a)
                | None => (u, a)
                end in
              match username, email with
              | Some name, Some address =>
                  match commit_update (set_identity name address u1) (users a) with
                  | inl e => inl e
                  | inr table =>
                      inr (Redirect "profile",
                           flash "Profile updated successfully" "success"
                                 (set_users table a1))
                  end
              | _, _ => inl IntegrityError
              end
          end
      | GET => inr (Render "profile.html" user, a)
      end
  end.

(** The settings read from the form of [/settings]: a check box is on when
    its key is in the form, a choice falls back to its default. *)
Definition form_settings (f : gmap string string) : Settings := {|
  dark_mode := bool_decide (is_Some (f !! "dark_mode"));
  primary_color := default "#1dbf73" (f !! "primary_color");
  card_layout := default "grid" (f !! "card_layout");
  date_range := default "month" (f !! "date_range");
  currency := default "₹" (f !! "currency");
  language := default "en" (f !! "language");
  email_alerts := bool_decide (is_Some (f !! "email_alerts"));
  daily_summary := bool_decide (is_Some (f !! "daily_summary"));
  weekly_summary := bool_decide (is_Some (f !! "weekly_summary"));
  show_earnings := bool_decide (is_Some (f !! "show_earnings"));
  show_ratings := bool_decide (is_Some (f !! "show_ratings"));
  show_orders := bool_decide (is_Some (f !! "show_orders"));
  show_messages := bool_decide (is_Some (f !! "show_messages"));
  default_page := default "home" (f !! "default_page");
  export_format := default "excel" (f !! "export_format")
|}.

(** The handler of [/settings]. *)
Definition settings (req : Request) (a : App) : Result :=
  match session_user_id (session a) with
  | None =>
      inr (Redirect "login", flash "Please log in to access this page" "error" a)
  | Some key =>
      let user := get key (users a) in
      match method req with
      | POST =>
          match user with
          | None => inl AttributeError
          | Some u =>
              inr (Redirect "settings",
                   flash "Settings saved successfully" "success"
                         (set_users (replace_row (set_prefs (form_settings (form req)) u)
                                                 (users a)) a))
          end
      | GET => inr (Render "settings.html" user, a)
      end
  end.

(** The handler of [/about]. *)
Definition about (a : App) : Result :=
  inr (Render "about.html" (current_user a), a).

End Handlers.

(** *** Vocabulary of the statements *)

(** The constraints of the table: keys, names and addresses are unique. *)
Definition table_ok (table : list User) : Prop :=
  NoDup (id <$> table) ∧ NoDup (username <$> table) ∧ NoDup (email <$> table).

(** The session refers to no user or to a row of the table. *)
Definition session_ok (a : App) : Prop :=
  match session_user_id (session a) with
  | Some key => is_Some (get key (users a))
  | None => True
  end.

(** Who is logged in, by the two keys of the session. *)
Definition logged_in (a : App) : option nat * option string :=
  (session_user_id (session a), session_username (session a)).

(** The messages flashed by a request: what the flashes of [a'] hold after
    those of [a]. *)
Definition flashed (a a' : App) (messages : list (string * string)) : Prop :=
  flashes (session a') = flashes (session a) ++ messages.

(** Two rows that differ at most in the verification flag, which is not
    taken back. *)
Definition verified_more (v v' : User) : Prop :=
  v' = v ∨ (is_verified v = false ∧ v' = set_verified true v).

(** *** Instances and states for evaluation *)

(** A hash that is the password itself behind its salt. *)
Definition salted_plain : PasswordHashing := {|
  generate_password_hash := λ salt p, salt +:+ "$" +:+ p;
  check_password_hash := λ h p,
    match String.index 0 "$" h with
    | Some i => String.eqb (String.substring (S i) (String.length h - S i) h) p
    | None => false
    end
|}.

(** A token that is the payload behind the time of signing, in unary. *)
Fixpoint ticks (n : nat) (s : string) : string :=
  match n with
  | 0 => s
  | S m => "1" +:+ ticks m s
  end.

Definition ticked_tokens : TimedSerializer := {|
  dumps := λ e t, ticks t (":" +:+ e);
  loads := λ token t max_age,
    match String.index 0 ":" token with
    | Some signed =>
        if (signed <=? t) && (t - signed <=? max_age)
        then Payload (String.substring (S signed) (String.length token - S signed) token)
        else Expired
    | None => Bad
    end
|}.

Definition ada : User :=
  mkUser 1 "ada" "ada@example.org" (Some "s$lovelace") "default.jpg" 10 true
         default_settings.

Definition bob : User :=
  mkUser 2 "bob" "bob@example.org" (Some "t$builder") "default.jpg" 20 false
         default_settings.

Definition two_users : App := mkApp [ada; bob] session_clear [].

Definition ada_logged_in : App :=
  mkApp [ada; bob] (mkSession (Some 1) (Some "ada") []) [].

Definition post (fields : list (string * string)) : Request :=
  mkRequest POST (list_to_map fields).

Definition env_up : Env := mkEnv 100 true "s".
Definition env_down : Env := mkEnv 100 false "s".
Definition env_later : Env := mkEnv 200 true "s".

Definition eve_registers : Request :=
  post [("username", "eve"); ("email", "eve@example.org");
        ("password", "pw"); ("confirm_password", "pw")].

Definition eve_logs_in : Request := post [("username", "eve"); ("password", "pw")].

Definition ada_logs_in : Request :=
  post [("username", "ada"); ("password", "lovelace")].

Definition ada_renames : Request :=
  post [("username", "countess"); ("email", "ada@example.org");
        ("new_password", "engine"); ("confirm_password", "motor")].

Definition ada_takes_bob : Request :=
  post [("username", "bob"); ("email", "ada@example.org")].

Definition ada_goes_dark : Request := post [("dark_mode", "on"); ("currency", "$")].

End Accounts.

(** ** Vocabulary of the statements *)

(** A computation that leaves the frame as it found it, whether it returns
    or raises. *)
Definition keeps_df {A} (m : M A) : Prop := ∀ w, df (m w).2 = df w.

(** The world with another frame in place of [df]. *)
Definition with_df (d : DataFrame) (w : World) : World :=
  mkWorld d (plot_folder w) (fs_log w).

(** The world after the file [name] has been written. *)
Definition wrote (name : string) (content : bytes) (w : World) : World :=
  mkWorld (df w) (<[name := content]> (plot_folder w)) (fs_log w ++ [Written name]).

(** The world after a list of files has been written, first to last. *)
Definition wrote_all (files : list (string * bytes)) (w : World) : World :=
  foldl (λ w f, wrote f.1 f.2 w) w files.

(** The world after the entries [names] have been removed, first to last. *)
Definition removed_all (names : list string) (w : World) : World :=
  mkWorld (df w) (foldl (λ m f, delete f m) (plot_folder w) names)
          (fs_log w ++ (Removed <$> names)).

(** The names of the image files among the entries of the folder. *)
Definition png_entries (w : World) : list string :=
  List.filter is_png (map_to_list (plot_folder w)).*1.

(** A world whose folder holds no image file. *)
Definition no_png (w : World) : Prop := png_entries w = [].

(** Blocks run one after the other and then [k], as a straight-line
    sequence does. *)
Fixpoint run_blocks {A} (blocks : list (M unit)) (k : M A) : M A :=
  match blocks with
  | [] => k
  | b :: rest => b;; run_blocks rest k
  end.

(** What a block does with the frame [d], run by itself on an empty
    folder: the content of the file it writes, or the exception it raises. *)
Definition block_result (r : string * list string * M unit) (d : DataFrame)
  : Exn + bytes :=
  match r.2 (mkWorld d ∅ []) with
  | (inr _, w') => inr (default [] (plot_folder w' !! r.1.1))
  | (inl e, _) => inl e
  end.

(** What the table says of a block, given the file it saves and the columns
    it refers to.  The block looks at the frame only: in any world it writes
    its file, with the content it writes when run by itself, and nothing
    else, or it raises what it raises by itself and changes nothing.  With
    one of its columns missing it raises. *)
Definition recipe_sound (r : string * list string * M unit) : Prop :=
  ∀ w,
    r.2 w = match block_result r (df w) with
            | inr content => (inr tt, wrote r.1.1 content w)
            | inl e => (inl e, w)
            end ∧
    (has_columns r.1.2 (df w) = false → ∃ e, block_result r (df w) = inl e).

(** Does the block return on the frame [d]? *)
Definition recipe_returns (d : DataFrame) (r : string * list string * M unit)
  : bool :=
  match block_result r d with
  | inr _ => true
  | inl _ => false
  end.

(** Each of the first [k] recipes, run by itself on the frame [d], returns:
    its columns are there and the libraries draw its chart. *)
Definition renders_first `{!Plotting} (k : nat) (d : DataFrame) : Prop :=
  forallb (recipe_returns d) (take k recipes) = true.

(** Every recipe returns on the frame [d]. *)
Definition renders_all `{!Plotting} (d : DataFrame) : Prop :=
  forallb (recipe_returns d) recipes = true.

(** The files written by a sequence of blocks on the frame [d]: those of
    the blocks before the first that raises. *)
Fixpoint written (rs : list (string * list string * M unit)) (d : DataFrame)
  : list (string * bytes) :=
  match rs with
  | [] => []
  | r :: rest =>
      match block_result r d with
      | inr content => (r.1.1, content) :: written rest d
      | inl _ => []
      end
  end.

(** The exception that ends the sequence, if one does. *)
Fixpoint first_error (rs : list (string * list string * M unit)) (d : DataFrame)
  : option Exn :=
  match rs with
  | [] => None
  | r :: rest =>
      match block_result r d with
      | inr _ => first_error rest d
      | inl e => Some e
      end
  end.

(** The number of rows of a column. *)
Definition rows (c : Column) : nat :=
  match c with
  | StrCol vals => length vals
  | IntCol vals => length vals
  | FloatCol vals => length vals
  end.

(** A generator whose draws have the size asked for. *)
Definition draws_sized `{!NumpyRandom} : Prop :=
  (∀ options n g, length (choice options n g).1 = n) ∧
  (∀ low high n g, length (uniform low high n g).1 = n) ∧
  (∀ scale n g, length (exponential scale n g).1 = n) ∧
  (∀ lam n g, length (poisson lam n g).1 = n).

(** Worlds for evaluation.  The six listings with an empty folder, with a
    folder that holds a style sheet, and with one that holds a style sheet
    and a stale image; the two listings with an empty folder. *)
Definition six_world : World := mkWorld six_listings empty_folder [].
Definition css_world : World := mkWorld six_listings css_folder [].
Definition stale_world : World :=
  mkWorld six_listings (<["old.png" := []]> css_folder) [].
Definition empty_world : World := mkWorld full_listings empty_folder [].

(** Two listings of one category, with the metric columns of the home page. *)
Definition two_writers : DataFrame :=
  [ ("Category", StrCol (Some <$> ["Writing"; "Writing"]));
    ("Rating", FloatCol [4%float; 5%float]);
    ("Total_Earning", FloatCol [100%float; 200%float]) ].

(** The order of [sorted]: a name is before another when it is not greater
    in the order of the code points. *)
Definition name_le (a b : string) : Prop := Is_true (String.leb a b).

(** The entries of a folder that are not image files. *)
Definition other_entries (folder : gmap string bytes) : gmap string bytes :=
  filter (λ kv, is_png kv.1 = false) folder.

(** A world whose folder holds one image that is no chart. *)
Definition logo_world : World :=
  mkWorld [] {[ "logo.png" := [] ]} [].

(** A dataset without rows, as read from a file that has only its header. *)
Definition no_listings : DataFrame :=
  [ ("Category", StrCol []); ("Rating", StrCol []); ("Total_Earning", StrCol []) ].

(** * Properties *)

(** ** Columns of a frame *)

Lemma lookup_col_drop_eq (c : string) (d : DataFrame) :
  lookup_col c (drop_col c d) = None.
Proof.
  induction d as [|[k v] d IH]; [done|].
  unfold drop_col in *. rewrite filter_cons. simpl.
  destruct (decide (k ≠ c)) as [Hne|Heq]; [|done].
  simpl. destruct (String.eqb_spec k c); [done|]. apply IH.
Qed.

Lemma lookup_col_drop_ne (c c' : string) (d : DataFrame) :
  c ≠ c' → lookup_col c' (drop_col c d) = lookup_col c' d.
Proof.
  intros Hne. induction d as [|[k v] d IH]; [done|].
  unfold drop_col in *. rewrite filter_cons. simpl.
  destruct (decide (k ≠ c)) as [Hk|Hk]; simpl.
  - by rewrite IH.
  - apply dec_stable in Hk. subst k.
    destruct (String.eqb_spec c c'); [done|]. apply IH.
Qed.

Lemma has_columns_true (cols : list string) (d : DataFrame) :
  has_columns cols d = true ↔ ∀ c, c ∈ cols → is_Some (lookup_col c d).
Proof.
  unfold has_columns. rewrite forallb_forall. split.
  - intros H c Hc. apply list_elem_of_In, H in Hc. by apply bool_decide_eq_true in Hc.
  - intros H c Hc. apply bool_decide_eq_true, H, list_elem_of_In, Hc.
Qed.

Lemma has_columns_false (c : string) (cols : list string) (d : DataFrame) :
  c ∈ cols → lookup_col c d = None → has_columns cols d = false.
Proof.
  intros Hc Hnone. destruct (has_columns cols d) eqn:E; [|done].
  rewrite has_columns_true in E. destruct (E c Hc) as [v Hv]. congruence.
Qed.

Lemma has_columns_drop (c : string) (cols : list string) (d : DataFrame) :
  valid d → cols ⊆ required_columns → c ∉ cols →
  has_columns cols (drop_col c d) = true.
Proof.
  intros Hv Hsub Hc. apply has_columns_true. intros c' Hc'.
  rewrite lookup_col_drop_ne by (intros ->; done).
  unfold valid in Hv. rewrite has_columns_true in Hv. apply Hv, Hsub, Hc'.
Qed.

(** ** The frame is only read *)

Lemma keeps_df_ret {A} (a : A) : keeps_df (mret a).
Proof. done. Qed.

Lemma keeps_df_raise {A} (e : Exn) : keeps_df (@raise A e).
Proof. done. Qed.

Lemma keeps_df_bind {A B} (m : M A) (k : A → M B) :
  keeps_df m → (∀ a, keeps_df (k a)) → keeps_df (m ≫= k).
Proof.
  intros Hm Hk w. unfold mbind, M_bind. specialize (Hm w).
  destruct (m w) as [[e|a] w']; simpl in *; [done|].
  by rewrite Hk.
Qed.

Lemma keeps_df_lift {A} (r : Exn + A) : keeps_df (lift r).
Proof. by destruct r. Qed.

Lemma keeps_df_getitem name : keeps_df (getitem name).
Proof. intros w. unfold getitem. by destruct (lookup_col name (df w)). Qed.

Lemma keeps_df_groupby name : keeps_df (groupby name).
Proof. intros w. unfold groupby. by destruct (lookup_col name (df w)). Qed.

Lemma keeps_df_select name : keeps_df (select name).
Proof. intros w. unfold select. by destruct (lookup_col name (df w)). Qed.

Lemma keeps_df_sns_var name : keeps_df (sns_var name).
Proof. intros w. unfold sns_var. by destruct (lookup_col name (df w)). Qed.

Lemma keeps_df_frame : keeps_df frame.
Proof. done. Qed.

Lemma keeps_df_listdir : keeps_df listdir.
Proof. done. Qed.

Lemma keeps_df_remove name : keeps_df (remove name).
Proof. intros w. unfold remove. by destruct (plot_folder w !! name). Qed.

Lemma keeps_df_write_file name content : keeps_df (write_file name content).
Proof. done. Qed.

Lemma keeps_df_for_each {A} (l : list A) (body : A → M unit) :
  (∀ a, keeps_df (body a)) → keeps_df (for_each l body).
Proof.
  intros Hb. induction l as [|a l IH]; simpl.
  - apply keeps_df_ret.
  - apply keeps_df_bind; auto.
Qed.

Create HintDb keeps_df discriminated.
#[local] Hint Resolve keeps_df_ret keeps_df_raise keeps_df_lift keeps_df_getitem
  keeps_df_groupby keeps_df_select keeps_df_sns_var keeps_df_frame keeps_df_listdir
  keeps_df_remove keeps_df_write_file : keeps_df.

Ltac keeps_df_step :=
  lazymatch goal with
  | |- keeps_df (_ ≫= _) => apply keeps_df_bind; [|intros ?]
  | |- keeps_df (for_each _ _) => apply keeps_df_for_each; intros ?
  | |- keeps_df (match ?x with _ => _ end) => destruct x
  | |- keeps_df (if ?b then _ else _) => destruct b
  | |- keeps_df _ => solve [auto with keeps_df]
  end.

Lemma keeps_df_list_plots : keeps_df list_plots.
Proof. unfold list_plots. repeat keeps_df_step. Qed.

Lemma keeps_df_home : keeps_df home.
Proof. unfold home. repeat keeps_df_step. Qed.

Section GenerationFacts.
Context `{!Plotting}.

(** Unfolding of the blocks of [generate_plots] down to the primitives. *)
Ltac unfold_blocks :=
  cbv [fst snd
       plot_pairplot plot_correlation_heatmap plot_earnings_by_rating
       plot_avg_price_gender plot_avg_reviews_gender plot_total_earnings_gender
       plot_avg_rating_level plot_avg_reviews_level plot_reviews_by_rating
       plot_price_boxplot_level plot_earnings_boxplot_gender
       plot_reviews_boxplot_gender plot_price_boxplot_gender
       plot_ratings_by_category plot_avg_rating_category
       plot_avg_earnings_category plot_max_earnings_category
       plot_total_earnings_category plot_total_reviews_category
       plot_avg_price_category plot_category_gender_count
       plot_price_category_gender plot_price_level_gender
       plot_review_count_kde plot_level_distribution groupby_select savefig].

(** Case analysis on every column lookup of the goal, at the world [w]. *)
Ltac case_lookups w :=
  repeat (match goal with
          | E : lookup_col ?c (df w) = _ |- context [lookup_col ?c (df w)] =>
              rewrite E
          | |- context [lookup_col ?c (df w)] =>
              destruct (lookup_col c (df w)) eqn:?
          end; simpl).

Lemma keeps_df_clear_plots : keeps_df clear_plots.
Proof. unfold clear_plots. repeat keeps_df_step. Qed.

Lemma keeps_df_recipes : Forall (λ r, keeps_df r.2) recipes.
Proof.
  unfold recipes.
  repeat (apply Forall_cons; split; [unfold_blocks; repeat keeps_df_step|]).
  constructor.
Qed.

(** The table [recipes] describes the blocks: each block looks at the frame
    only, saves the file listed with it or raises, and needs the columns
    listed with it. *)
Lemma recipes_sound : Forall recipe_sound recipes.
Proof.
  unfold recipes.
  repeat (apply Forall_cons; split;
    [ intros w; unfold block_result, has_columns; simpl; unfold_blocks;
      cbv [getitem groupby select sns_var frame write_file lift raise
           mbind M_bind mret M_ret];
      simpl; case_lookups w;
      try (match goal with
           | |- context [render ?fig] => destruct (render fig)
           end; simpl);
      rewrite ?lookup_insert_eq; simpl;
      (split; [done|first [done | intros _; eauto]]) | ]).
  constructor.
Qed.

(** ** Worlds after writes and removals *)

Lemma df_wrote_all files w : df (wrote_all files w) = df w.
Proof.
  revert w. induction files as [|f files IH]; intros w; [done|].
  simpl. by rewrite IH.
Qed.

Lemma plot_folder_wrote_all files w :
  plot_folder (wrote_all files w)
  = foldl (λ m f, <[f.1 := f.2]> m) (plot_folder w) files.
Proof.
  revert w. induction files as [|f files IH]; intros w; [done|].
  simpl. by rewrite IH.
Qed.

Lemma fs_log_wrote_all files w :
  fs_log (wrote_all files w) = fs_log w ++ (Written <$> files.*1).
Proof.
  revert w. induction files as [|f files IH]; intros w; simpl.
  - by rewrite app_nil_r.
  - rewrite IH. simpl. by rewrite <- app_assoc.
Qed.

Lemma dom_foldl_insert (files : list (string * bytes)) (m : gmap string bytes) :
  dom (foldl (λ m f, <[f.1 := f.2]> m) m files) = dom m ∪ list_to_set files.*1.
Proof.
  revert m. induction files as [|f files IH]; intros m; simpl.
  - by rewrite (right_id_L ∅ (∪)).
  - rewrite IH, dom_insert_L.
    by rewrite (comm_L (∪) {[f.1]} (dom m)), <- (assoc_L (∪)).
Qed.

Lemma lookup_foldl_insert_notin (files : list (string * bytes))
    (m : gmap string bytes) (name : string) :
  name ∉ files.*1 →
  foldl (λ m f, <[f.1 := f.2]> m) m files !! name = m !! name.
Proof.
  revert m. induction files as [|f files IH]; intros m Hn; simpl; [done|].
  simpl in Hn. apply not_elem_of_cons in Hn as [Hne Hn].
  rewrite IH by done. by rewrite lookup_insert_ne.
Qed.

Lemma lookup_foldl_delete (names : list string) (m : gmap string bytes) (f : string) :
  foldl (λ m f, delete f m) m names !! f
  = if decide (f ∈ names) then None else m !! f.
Proof.
  revert m. induction names as [|n names IH]; intros m; simpl.
  - destruct (decide (f ∈ [])) as [Hin|]; [|done]. by apply elem_of_nil in Hin.
  - rewrite IH. destruct (decide (f ∈ names)) as [Hin|Hnin].
    + rewrite decide_True; [done|]. by right.
    + destruct (decide (f = n)) as [->|Hne].
      * rewrite lookup_delete_eq, decide_True; [done|]. by left.
      * rewrite lookup_delete_ne by done.
        rewrite decide_False; [done|].
        intros [?|?]%elem_of_cons; done.
Qed.

Lemma removed_all_nil w : removed_all [] w = w.
Proof. destruct w. unfold removed_all. simpl. by rewrite app_nil_r. Qed.

Lemma removed_all_cons name names w :
  removed_all (name :: names) w = removed_all names (removed_all [name] w).
Proof. unfold removed_all. simpl. by rewrite <- app_assoc. Qed.

Lemma elem_of_png_entries w name :
  name ∈ png_entries w ↔ is_png name = true ∧ is_Some (plot_folder w !! name).
Proof.
  unfold png_entries. rewrite list_elem_of_In, filter_In, <- list_elem_of_In.
  rewrite list_elem_of_fmap. split.
  - intros [[[k v] [-> Hkv]] Hpng]. split; [done|].
    apply elem_of_map_to_list in Hkv. eauto.
  - intros [Hpng [v Hv]]. split; [|done].
    exists (name, v). split; [done|]. by apply elem_of_map_to_list.
Qed.

Lemma NoDup_List_filter {A} (f : A → bool) (l : list A) :
  NoDup l → NoDup (List.filter f l).
Proof.
  induction 1 as [|x l Hx Hl IH]; simpl; [constructor|].
  destruct (f x); [|done]. constructor; [|done].
  rewrite list_elem_of_In, filter_In, <- list_elem_of_In. tauto.
Qed.

Lemma NoDup_png_entries w : NoDup (png_entries w).
Proof. apply NoDup_List_filter, NoDup_fst_map_to_list. Qed.

Lemma no_png_lookup w name :
  no_png w → is_Some (plot_folder w !! name) → is_png name = false.
Proof.
  unfold no_png. intros Hno Hsome. destruct (is_png name) eqn:Hpng; [|done].
  assert (Hin : name ∈ png_entries w) by by apply elem_of_png_entries.
  rewrite Hno in Hin. by apply elem_of_nil in Hin.
Qed.

Lemma no_png_empty w : plot_folder w = ∅ → no_png w.
Proof. unfold no_png, png_entries. by intros ->. Qed.

(** After the clearing loop an entry is gone if its name ends in [.png] and
    is as before otherwise. *)
Lemma lookup_cleared w name :
  plot_folder (removed_all (png_entries w) w) !! name
  = if is_png name then None else plot_folder w !! name.
Proof.
  unfold removed_all. simpl. rewrite lookup_foldl_delete.
  destruct (decide (name ∈ png_entries w)) as [Hin|Hnin].
  - apply elem_of_png_entries in Hin as [-> _]. done.
  - destruct (is_png name) eqn:Hpng; [|done].
    destruct (plot_folder w !! name) eqn:Hl; [|done].
    exfalso. apply Hnin, elem_of_png_entries. eauto.
Qed.

Lemma no_png_cleared w : no_png (removed_all (png_entries w) w).
Proof.
  unfold no_png.
  destruct (png_entries (removed_all (png_entries w) w)) as [|name l] eqn:E; [done|].
  assert (Hin : name ∈ png_entries (removed_all (png_entries w) w))
    by (rewrite E; left).
  apply elem_of_png_entries in Hin as [Hpng [v Hv]].
  rewrite lookup_cleared, Hpng in Hv. done.
Qed.

(** ** The clearing loop *)

Lemma for_each_remove (l : list string) (w : World) :
  NoDup l →
  (∀ f, f ∈ l → is_png f = true → is_Some (plot_folder w !! f)) →
  for_each l (λ file, if is_png file then remove file else mret tt) w
  = (inr tt, removed_all (List.filter is_png l) w).
Proof.
  intros Hnd. revert w. induction Hnd as [|x l Hx Hnd IH]; intros w Hin; simpl.
  - by rewrite removed_all_nil.
  - unfold mbind, M_bind. destruct (is_png x) eqn:Hpng.
    + destruct (Hin x) as [v Hv]; [by left|done|].
      unfold remove at 1. rewrite Hv.
      rewrite removed_all_cons. rewrite <- IH; [done|].
      intros f Hf Hfpng. simpl. rewrite lookup_delete_ne by (intros ->; done).
      apply Hin; [by right|done].
    + simpl. apply IH. intros f Hf. apply Hin. by right.
Qed.

Lemma clear_plots_spec w :
  clear_plots w = (inr tt, removed_all (png_entries w) w).
Proof.
  unfold clear_plots, mbind, M_bind, listdir. simpl.
  apply for_each_remove; [apply NoDup_fst_map_to_list|].
  intros f Hf _. apply list_elem_of_fmap in Hf as [[k v] [-> Hkv]].
  apply elem_of_map_to_list in Hkv. eauto.
Qed.


Lemma dom_wrote_all files w :
  dom (plot_folder (wrote_all files w))
  = dom (plot_folder w) ∪ list_to_set files.*1.
Proof. by rewrite plot_folder_wrote_all, dom_foldl_insert. Qed.

Lemma lookup_wrote_all_other files w name :
  name ∉ files.*1 →
  plot_folder (wrote_all files w) !! name = plot_folder w !! name.
Proof.
  intros Hn. rewrite plot_folder_wrote_all. by apply lookup_foldl_insert_notin.
Qed.

(** ** Running the blocks *)

(** The straight-line sequence stops at the first block that raises; the
    files of the blocks before it have been written. *)
Lemma run_blocks_spec {A} (rs : list (string * list string * M unit)) (k : M A) w :
  Forall recipe_sound rs →
  run_blocks rs.*2 k w
  = match first_error rs (df w) with
    | None => k (wrote_all (written rs (df w)) w)
    | Some e => (inl e, wrote_all (written rs (df w)) w)
    end.
Proof.
  intros Hs. revert w. induction Hs as [|r rs Hr Hs IH]; intros w; simpl; [done|].
  unfold mbind, M_bind. destruct (Hr w) as [-> _].
  destruct (block_result r (df w)) as [e|content]; [done|].
  by rewrite IH.
Qed.

Lemma written_names (rs : list (string * list string * M unit)) d :
  (written rs d).*1 = take (length (written rs d)) rs.*1.*1.
Proof.
  induction rs as [|r rs IH]; simpl; [done|].
  destruct (block_result r d); simpl; [done|]. by f_equal.
Qed.

Lemma length_written (rs : list (string * list string * M unit)) d :
  length (written rs d) ≤ length rs.
Proof.
  induction rs as [|r rs IH]; simpl; [done|].
  destruct (block_result r d); simpl; lia.
Qed.

Lemma first_error_None (rs : list (string * list string * M unit)) d :
  first_error rs d = None ↔ forallb (recipe_returns d) rs = true.
Proof.
  induction rs as [|r rs IH]; simpl; [done|]. unfold recipe_returns at 1.
  destruct (block_result r d); simpl; [done|]. apply IH.
Qed.

Lemma returns_length_written (rs : list (string * list string * M unit)) d :
  forallb (recipe_returns d) rs = true → length (written rs d) = length rs.
Proof.
  induction rs as [|r rs IH]; simpl; [done|]. unfold recipe_returns at 1.
  destruct (block_result r d); simpl; [done|]. intros Hrest. by rewrite IH.
Qed.

Lemma first_error_Some_length (rs : list (string * list string * M unit)) d e :
  first_error rs d = Some e → length (written rs d) < length rs.
Proof.
  induction rs as [|r rs IH]; simpl; [done|].
  destruct (block_result r d); simpl; [lia|]. intros Hrest. apply IH in Hrest. lia.
Qed.

(** A block that raises is where the sequence stops at the latest. *)
Lemma written_stops (rs : list (string * list string * M unit)) d k r :
  rs !! k = Some r → recipe_returns d r = false →
  length (written rs d) ≤ k ∧ is_Some (first_error rs d).
Proof.
  revert k. induction rs as [|r' rs IH]; intros k Hk Hr; [done|].
  simpl. destruct k as [|k]; simpl in Hk.
  - injection Hk as ->. unfold recipe_returns in Hr.
    destruct (block_result r d); [|done]. split; [done|eauto].
  - destruct (block_result r' d); simpl; [split; [lia|eauto]|].
    destruct (IH k Hk Hr) as [Hlen Herr]. split; [lia|done].
Qed.

(** It is where the sequence stops when the blocks before it return. *)
Lemma written_exact (rs : list (string * list string * M unit)) d k r e :
  rs !! k = Some r → block_result r d = inl e →
  forallb (recipe_returns d) (take k rs) = true →
  length (written rs d) = k ∧ first_error rs d = Some e.
Proof.
  revert k. induction rs as [|r' rs IH]; intros k Hk Hr Hall; [done|].
  simpl. destruct k as [|k]; simpl in Hk, Hall.
  - injection Hk as ->. by rewrite Hr.
  - apply andb_true_iff in Hall as [Hhead Hall]. unfold recipe_returns in Hhead.
    destruct (block_result r' d); [done|]. simpl.
    destruct (IH k Hk Hr Hall) as [Hlen Herr]. by rewrite Hlen.
Qed.

Lemma recipes_before_lookup (c : string) (rs : list (string * list string * M unit)) :
  Exists (λ r, c ∈ r.1.2) rs →
  ∃ r, rs !! recipes_before c rs = Some r ∧ c ∈ r.1.2.
Proof.
  induction 1 as [r rs Hin|r rs Hex IH]; simpl.
  - rewrite bool_decide_eq_true_2 by done. eauto.
  - destruct (decide (c ∈ r.1.2)) as [Hin|Hnin].
    + rewrite bool_decide_eq_true_2 by done. eauto.
    + rewrite bool_decide_eq_false_2 by done. apply IH.
Qed.

Lemma generate_plots_unfold w :
  generate_plots w
  = (clear_plots;;
     run_blocks recipes.*2 (files ← listdir; mret (length files))) w.
Proof. reflexivity. Qed.

Lemma length_catalog : length catalog = 25.
Proof. reflexivity. Qed.

Lemma NoDup_catalog : NoDup catalog.
Proof. apply (bool_decide_unpack _). by vm_compute. Qed.

Lemma catalog_png : Forall (λ name, is_png name = true) catalog.
Proof. apply (bool_decide_unpack _). by vm_compute. Qed.

Lemma recipes_columns_required : Forall (λ r, r.1.2 ⊆ required_columns) recipes.
Proof.
  assert (Hall : Forall (λ r, Forall (λ c, c ∈ required_columns) r.1.2) recipes)
    by (apply (bool_decide_unpack _); by vm_compute).
  eapply Forall_impl; [exact Hall|]. intros r Hr c Hc.
  rewrite Forall_forall in Hr. by apply Hr.
Qed.

Lemma required_columns_used :
  Forall (λ c, Exists (λ r, c ∈ r.1.2) recipes) required_columns.
Proof. apply (bool_decide_unpack _). by vm_compute. Qed.

Lemma first_use_bounds :
  Forall (λ c, 2 ≤ first_use c ≤ 13) required_columns.
Proof. apply (bool_decide_unpack _). by vm_compute. Qed.

Lemma valid_has_recipe_columns d :
  valid d → forallb (λ r, has_columns r.1.2 d) recipes = true.
Proof.
  intros Hv. apply forallb_forall. intros r Hr%list_elem_of_In.
  apply has_columns_true. intros c Hc.
  unfold valid in Hv. rewrite has_columns_true in Hv. apply Hv.
  pose proof recipes_columns_required as Hreq.
  rewrite Forall_forall in Hreq. by apply (Hreq r).
Qed.

Lemma recipe_columns_valid d :
  forallb (λ r, has_columns r.1.2 d) recipes = true → valid d.
Proof.
  intros Hall. apply has_columns_true. intros c Hc.
  pose proof required_columns_used as Hused. rewrite Forall_forall in Hused.
  apply Hused in Hc. apply Exists_exists in Hc as (r & Hr & Hcr).
  rewrite forallb_forall in Hall. apply list_elem_of_In, Hall in Hr.
  rewrite has_columns_true in Hr. by apply Hr.
Qed.

(** A block returns only on a frame that has its columns. *)
Lemma recipe_returns_columns d r :
  recipe_sound r → recipe_returns d r = true → has_columns r.1.2 d = true.
Proof.
  intros Hs Hr. destruct (has_columns r.1.2 d) eqn:Hc; [done|].
  destruct (Hs (mkWorld d ∅ [])) as [_ Hraise]. simpl in Hraise.
  destruct (Hraise Hc) as [e He]. unfold recipe_returns in Hr. by rewrite He in Hr.
Qed.

(** The seven columns are needed for every recipe to return. *)
Lemma renders_all_valid d : renders_all d → valid d.
Proof.
  intros Hall. apply recipe_columns_valid, forallb_forall. intros r Hr.
  unfold renders_all in Hall. rewrite forallb_forall in Hall.
  apply recipe_returns_columns; [|by apply Hall].
  pose proof recipes_sound as Hs. rewrite Forall_forall in Hs.
  by apply Hs, list_elem_of_In.
Qed.

Lemma renders_first_all d : renders_first (length recipes) d ↔ renders_all d.
Proof. unfold renders_first, renders_all. by rewrite firstn_all. Qed.

Lemma renders_all_first k d : renders_all d → renders_first k d.
Proof.
  unfold renders_first, renders_all. rewrite !forallb_forall.
  intros Hall r Hr. apply Hall.
  apply list_elem_of_In. apply list_elem_of_In in Hr. by eapply subseteq_take.
Qed.

(** ** The folder after generation *)

Lemma count_files w :
  (files ← listdir; mret (length files)) w = (inr (size (plot_folder w)), w).
Proof.
  unfold mbind, M_bind, listdir, mret, M_ret.
  by rewrite length_fmap, length_map_to_list.
Qed.

(** Generation removes the image files it finds, writes the files of the
    recipes that come before the first that raises, and then raises with
    that recipe or, when none does, returns the number of entries of the
    folder. *)
Lemma generate_plots_spec w :
  let w' := wrote_all (written recipes (df w)) (removed_all (png_entries w) w) in
  generate_plots w
  = match first_error recipes (df w) with
    | None => (inr (size (plot_folder w')), w')
    | Some e => (inl e, w')
    end.
Proof.
  cbv zeta. rewrite generate_plots_unfold. unfold mbind at 1, M_bind at 1.
  rewrite clear_plots_spec, (run_blocks_spec _ _ _ recipes_sound).
  change (df (removed_all (png_entries w) w)) with (df w).
  destruct (first_error recipes (df w)); [done|]. apply count_files.
Qed.

Lemma written_catalog d :
  (written recipes d).*1 = take (length (written recipes d)) catalog.
Proof. apply written_names. Qed.

(** Whatever the frame, generation leaves the world in which the image files
    found have been removed and an initial segment of the catalog has been
    written.  It returns the number of entries of the folder when every
    recipe returns, and with the whole catalog written; otherwise it
    raises, with less than the catalog written. *)
Lemma generate_plots_any w :
  ∃ j files, j ≤ length catalog ∧ files.*1 = take j catalog ∧
    let w' := wrote_all files (removed_all (png_entries w) w) in
    (generate_plots w).2 = w' ∧
    (((generate_plots w).1 = inr (size (plot_folder w')) ∧
      j = length catalog ∧ renders_all (df w)) ∨
     (∃ e, (generate_plots w).1 = inl e) ∧
      j < length catalog ∧ ¬ renders_all (df w)).
Proof.
  pose proof (generate_plots_spec w) as Hgen. cbv zeta in Hgen.
  exists (length (written recipes (df w))), (written recipes (df w)).
  assert (Hlen : length catalog = length recipes)
    by (unfold catalog; by rewrite !length_fmap).
  split; [rewrite Hlen; apply length_written|].
  split; [apply written_catalog|]. cbv zeta.
  destruct (first_error recipes (df w)) as [e|] eqn:Herr; rewrite Hgen.
  - split; [done|]. right. split; [eauto|].
    split; [rewrite Hlen; by eapply first_error_Some_length|].
    intros Hall. apply first_error_None in Hall. congruence.
  - split; [done|]. left. apply first_error_None in Herr.
    split; [done|]. split; [|done]. by rewrite Hlen, returns_length_written.
Qed.

(** When every recipe returns on the frame, generation returns. *)
Lemma generate_plots_ok w :
  renders_all (df w) →
  ∃ files, files.*1 = catalog ∧
    let w' := wrote_all files (removed_all (png_entries w) w) in
    generate_plots w = (inr (size (plot_folder w')), w').
Proof.
  intros Hall.
  destruct (generate_plots_any w) as (j & files & _ & Hnames & Hw & Hres).
  cbv zeta in *.
  destruct Hres as [(Hres & -> & _)|(_ & _ & Hno)]; [|done].
  exists files. rewrite firstn_all in Hnames. split; [done|].
  destruct (generate_plots w) as [res wg]. simpl in Hw, Hres. by subst.
Qed.

(** Generation returns only when every recipe returns on the frame. *)
Lemma generate_plots_returns w n w' :
  generate_plots w = (inr n, w') → renders_all (df w).
Proof.
  intros Hgen.
  destruct (generate_plots_any w) as (j & files & _ & _ & _ & Hres).
  cbv zeta in Hres. rewrite Hgen in Hres.
  destruct Hres as [(_ & _ & Hall)|([e He] & _)]; done.
Qed.

(** With a column that some recipe refers to missing from the frame,
    generation raises in the first block that refers to it or before,
    after the blocks before that one have written their files. *)
Lemma generate_plots_missing w c :
  c ∈ required_columns → lookup_col c (df w) = None →
  ∃ e j files, j ≤ first_use c ∧ files.*1 = take j catalog ∧
    generate_plots w = (inl e, wrote_all files (removed_all (png_entries w) w)) ∧
    (renders_first (first_use c) (df w) → j = first_use c).
Proof.
  intros Hc Hnone.
  pose proof required_columns_used as Hused. rewrite Forall_forall in Hused.
  destruct (recipes_before_lookup c recipes (Hused c Hc)) as (r & Hk & Hin).
  fold (first_use c) in Hk.
  pose proof recipes_sound as Hs. rewrite Forall_forall in Hs.
  destruct (Hs r (list_elem_of_lookup_2 _ _ _ Hk) w) as [_ Hraise].
  destruct (Hraise (has_columns_false c _ _ Hin Hnone)) as [e0 He0].
  assert (Hr : recipe_returns (df w) r = false)
    by (unfold recipe_returns; by rewrite He0).
  destruct (written_stops recipes (df w) _ r Hk Hr) as [Hlen [e He]].
  pose proof (generate_plots_spec w) as Hgen. cbv zeta in Hgen. rewrite He in Hgen.
  exists e, (length (written recipes (df w))), (written recipes (df w)).
  split; [done|]. split; [apply written_catalog|]. split; [done|].
  intros Hall. by destruct (written_exact recipes (df w) _ r e0 Hk He0 Hall).
Qed.

Lemma no_png_disjoint_catalog w j :
  no_png w → dom (plot_folder w) ## (list_to_set (take j catalog) : gset string).
Proof.
  intros Hno name Hm Hc. apply elem_of_dom, (no_png_lookup w name Hno) in Hm.
  apply elem_of_list_to_set in Hc.
  pose proof catalog_png as Hpng. rewrite Forall_forall in Hpng.
  apply (subseteq_take j), Hpng in Hc. congruence.
Qed.

Lemma size_fresh_folder files w j :
  no_png w → j ≤ length catalog → files.*1 = take j catalog →
  size (plot_folder (wrote_all files w)) = size (plot_folder w) + j.
Proof.
  intros Hno Hj Hnames.
  rewrite <- size_dom, dom_wrote_all, Hnames, size_union
    by auto using no_png_disjoint_catalog.
  rewrite size_dom, size_list_to_set.
  - rewrite length_take. lia.
  - eapply sublist_NoDup; [apply NoDup_catalog|apply sublist_take].
Qed.

Lemma png_entries_fresh files w j :
  no_png w → files.*1 = take j catalog →
  png_entries (wrote_all files w) ≡ₚ take j catalog.
Proof.
  intros Hno Hnames. apply NoDup_Permutation; [apply NoDup_png_entries| |].
  { eapply sublist_NoDup; [apply NoDup_catalog|apply sublist_take]. }
  intros name. rewrite elem_of_png_entries, <- elem_of_dom, dom_wrote_all, Hnames.
  rewrite elem_of_union, elem_of_list_to_set, elem_of_dom.
  pose proof catalog_png as Hpng. rewrite Forall_forall in Hpng.
  split.
  - intros [Hp [Hin|Hin]]; [|done]. apply (no_png_lookup _ _ Hno) in Hin. congruence.
  - intros Hin. split; [by apply Hpng, (subseteq_take j)|by right].
Qed.

(** ** The handler of the chart page *)

Lemma sorted_Permutation (l : list string) : sorted l ≡ₚ l.
Proof. apply merge_sort_Permutation. Qed.

Lemma list_plots_spec w : list_plots w = (inr (sorted (png_entries w)), w).
Proof. done. Qed.

(** Cache hit: with an image file in the folder the handler reports the
    image files and leaves the world as it is. *)
Lemma eda_cached w :
  png_entries w ≠ [] →
  eda w = (inr (mkCharts (sorted (png_entries w)) (length (png_entries w))), w).
Proof.
  intros Hne. unfold eda, mbind, M_bind. rewrite list_plots_spec.
  pose proof (sorted_Permutation (png_entries w)) as Hperm.
  destruct (sorted (png_entries w)) as [|name found] eqn:E.
  - symmetry in Hperm. apply Permutation_nil_r in Hperm. done.
  - unfold mret, M_ret. by rewrite <- (Permutation_length Hperm).
Qed.

(** Cache miss: without an image file the handler generates. *)
Lemma eda_generates w :
  png_entries w = [] →
  eda w = (n ← generate_plots; found ← list_plots; mret (mkCharts found n)) w.
Proof.
  intros Hnil. unfold eda at 1, mbind at 1, M_bind at 1.
  by rewrite list_plots_spec, Hnil.
Qed.

(** On a folder without image files the handler returns exactly when
    generation does. *)
Lemma eda_returns w ctx w' :
  no_png w → eda w = (inr ctx, w') → renders_all (df w).
Proof.
  intros Hno. rewrite eda_generates by done. unfold mbind, M_bind.
  destruct (generate_plots w) as [[e|n] w1] eqn:Hgen; [done|].
  intros _. by eapply generate_plots_returns.
Qed.

(** The first request on a folder without image files, for a frame on
    which every recipe returns, and the request after it. *)
Lemma eda_first_then_cached w :
  renders_all (df w) → no_png w →
  ∃ found w',
    generate_plots w = (inr (size (plot_folder w) + 25), w') ∧
    size (plot_folder w') = size (plot_folder w) + 25 ∧
    dom (plot_folder w') = dom (plot_folder w) ∪ list_to_set catalog ∧
    fs_log w' = fs_log w ++ (Written <$> catalog) ∧
    found = sorted (png_entries w') ∧
    png_entries w' ≡ₚ catalog ∧
    eda w = (inr (mkCharts found (size (plot_folder w) + 25)), w') ∧
    eda w' = (inr (mkCharts found 25), w').
Proof.
  intros Hall Hno.
  destruct (generate_plots_ok w Hall) as [files [Hnames Hgen]]. cbv zeta in Hgen.
  rewrite Hno, removed_all_nil in Hgen.
  set (w' := wrote_all files w) in *.
  assert (Hnames' : files.*1 = take (length catalog) catalog)
    by by rewrite firstn_all.
  assert (Hsize : size (plot_folder w') = size (plot_folder w) + 25).
  { unfold w'. by rewrite (size_fresh_folder files w (length catalog)). }
  assert (Hperm : png_entries w' ≡ₚ catalog).
  { unfold w'. rewrite (png_entries_fresh files w (length catalog)) by done.
    by rewrite firstn_all. }
  rewrite Hsize in Hgen.
  exists (sorted (png_entries w')), w'.
  split; [done|]. split; [done|].
  split; [unfold w'; by rewrite dom_wrote_all, Hnames|].
  split; [unfold w'; by rewrite fs_log_wrote_all, Hnames|].
  split; [done|]. split; [done|].
  split.
  - rewrite eda_generates by done.
    unfold mbind, M_bind. by rewrite Hgen, list_plots_spec.
  - rewrite eda_cached.
    + by rewrite (Permutation_length Hperm), length_catalog.
    + intros Hnil. rewrite Hnil in Hperm. by apply Permutation_nil_l in Hperm.
Qed.

Lemma take_catalog_png j name : name ∈ take j catalog → is_png name = true.
Proof.
  intros Hin. pose proof catalog_png as Hpng. rewrite Forall_forall in Hpng.
  apply Hpng. by eapply subseteq_take.
Qed.

Lemma fs_log_generated j files w :
  files.*1 = take j catalog →
  fs_log (wrote_all files (removed_all (png_entries w) w))
  = fs_log w ++ (Removed <$> png_entries w) ++ (Written <$> take j catalog).
Proof.
  intros Hnames. rewrite fs_log_wrote_all, Hnames. simpl. by rewrite <- app_assoc.
Qed.

(** The image files of the folder after generation on a folder that had
    none: the files written. *)
Lemma generated_png_entries j files w name :
  files.*1 = take j catalog → is_png name = true →
  is_Some (plot_folder (wrote_all files (removed_all (png_entries w) w)) !! name)
  ↔ name ∈ take j catalog.
Proof.
  intros Hnames Hpng. rewrite <- elem_of_dom, dom_wrote_all, Hnames.
  rewrite elem_of_union, elem_of_list_to_set, elem_of_dom.
  rewrite lookup_cleared, Hpng. split; [|by right].
  intros [[? ?]|?]; done.
Qed.

(** ** Statements about generation and the chart page *)

(** C4, as the code has it.  For a valid dataset and an empty output
    directory.  When every recipe returns on the dataset, generation returns
    25 and leaves in the directory exactly the files of the fixed catalog:
    25 distinct names, each ending in [.png], written once each in the order
    of the recipes.  When some recipe does not, although its columns are
    there, generation raises and leaves the files of an initial segment of
    the catalog, fewer than 25. *)
Theorem generate_plots_fills_empty_folder w :
  valid (df w) → plot_folder w = ∅ →
  (renders_all (df w) →
   ∃ w', generate_plots w = (inr 25, w') ∧
     dom (plot_folder w') = list_to_set catalog ∧
     length catalog = 25 ∧ NoDup catalog ∧
     Forall (λ name, is_png name = true) catalog ∧
     fs_log w' = fs_log w ++ (Written <$> catalog)) ∧
  (¬ renders_all (df w) →
   ∃ e w' j, generate_plots w = (inl e, w') ∧ j < 25 ∧
     dom (plot_folder w') = list_to_set (take j catalog) ∧
     fs_log w' = fs_log w ++ (Written <$> take j catalog)).
Proof.
  intros Hv Hempty.
  assert (Hno : no_png w) by by apply no_png_empty.
  split.
  - intros Hall.
    destruct (eda_first_then_cached w Hall Hno)
      as (found & w' & Hgen & _ & Hdom & Hlog & _).
    rewrite Hempty, map_size_empty in Hgen. rewrite Hempty, dom_empty_L in Hdom.
    exists w'. split; [done|]. split; [by rewrite Hdom, (left_id_L ∅ (∪))|].
    auto using length_catalog, NoDup_catalog, catalog_png.
  - intros Hnot.
    destruct (generate_plots_any w) as (j & files & Hj & Hnames & Hw & Hres).
    cbv zeta in Hw, Hres.
    destruct Hres as [(_ & _ & Hall)|([e He] & Hlt & _)]; [done|].
    rewrite Hno, removed_all_nil in Hw.
    exists e, (wrote_all files w), j. rewrite length_catalog in Hlt.
    split; [|split; [done|split]].
    + destruct (generate_plots w) as [res wg]. simpl in Hw, He. by subst.
    + by rewrite dom_wrote_all, Hnames, Hempty, dom_empty_L, (left_id_L ∅ (∪)).
    + by rewrite fs_log_wrote_all, Hnames.
Qed.


(** C10.  The number generation returns is the number of entries of the
    output directory, whatever their extension.  So when the directory
    holds other files and no image and generation returns, the first
    request reports 25 plus the number of those files next to 25 artifact
    names, and the next request, served from the directory, reports 25. *)
Theorem chart_count_counts_every_entry w :
  (∀ n w', generate_plots w = (inr n, w') → n = size (plot_folder w')) ∧
  (no_png w → 0 < size (plot_folder w) →
   (∀ ctx w', eda w = (inr ctx, w') →
      num_plots ctx = size (plot_folder w) + 25 ∧
      length (plots ctx) = 25 ∧
      length (png_entries w') = 25 ∧
      length (plots ctx) < num_plots ctx ∧
      eda w' = (inr (mkCharts (plots ctx) 25), w')) ∧
   (renders_all (df w) → ∃ ctx w', eda w = (inr ctx, w'))).
Proof.
  split.
  - intros n w' Hgen.
    destruct (generate_plots_any w) as (j & files & _ & _ & Hw & Hres).
    cbv zeta in *. rewrite Hgen in Hw, Hres. simpl in *. subst w'.
    destruct Hres as [(Hres & _)|([e He] & _)]; congruence.
  - intros Hno Hne. split.
    + intros ctx w1 Heda.
      pose proof (eda_returns w ctx w1 Hno Heda) as Hall.
      destruct (eda_first_then_cached w Hall Hno)
        as (found & w' & _ & _ & _ & _ & -> & Hperm & Hfirst & Hsecond).
      rewrite Hfirst in Heda. injection Heda as <- <-. simpl.
      split; [done|].
      split; [by rewrite sorted_Permutation, (Permutation_length Hperm), length_catalog|].
      split; [by rewrite (Permutation_length Hperm), length_catalog|].
      split; [|done].
      rewrite sorted_Permutation, (Permutation_length Hperm), length_catalog. lia.
    + intros Hall.
      destruct (eda_first_then_cached w Hall Hno)
        as (found & w' & _ & _ & _ & _ & _ & _ & Hfirst & _).
      eauto.
Qed.

(** C9.  Generation itself starts by removing every entry of the output
    directory whose name ends in [.png], and only then writes: its file
    operations are the removals of those entries followed by the writes of
    an initial segment of the catalog.  Entries with another ending keep
    their content, and an image file that is not in the catalog is gone.
    Hence a direct call that follows a call that returned removes every
    artifact of the first and writes all 25 again. *)
Theorem generate_plots_clears_before_writing w :
  (∀ name, name ∈ png_entries w ↔
           is_png name = true ∧ is_Some (plot_folder w !! name)) ∧
  (∃ written, written `prefix_of` catalog ∧
     fs_log (generate_plots w).2
     = fs_log w ++ (Removed <$> png_entries w) ++ (Written <$> written)) ∧
  (∀ name, is_png name = false →
           plot_folder (generate_plots w).2 !! name = plot_folder w !! name) ∧
  (∀ name, is_png name = true → name ∉ catalog →
           plot_folder (generate_plots w).2 !! name = None) ∧
  (∀ n1 w1, generate_plots w = (inr n1, w1) →
   ∃ n2 w2,
     generate_plots w1 = (inr n2, w2) ∧
     png_entries w1 ≡ₚ catalog ∧
     fs_log w2 = fs_log w1 ++ (Removed <$> png_entries w1) ++ (Written <$> catalog)).
Proof.
  destruct (generate_plots_any w) as (j & files & Hj & Hnames & Hw & _).
  cbv zeta in Hw.
  split; [apply elem_of_png_entries|]. split; [|split; [|split]].
  - exists (take j catalog). split; [apply prefix_take|].
    rewrite Hw. by apply fs_log_generated.
  - intros name Hpng. rewrite Hw, lookup_wrote_all_other.
    + by rewrite lookup_cleared, Hpng.
    + rewrite Hnames. intros Hin%take_catalog_png. congruence.
  - intros name Hpng Hnin. rewrite Hw, lookup_wrote_all_other.
    + by rewrite lookup_cleared, Hpng.
    + rewrite Hnames. intros Hin. by apply Hnin, (subseteq_take j).
  - intros n1 w1 Hgen1.
    pose proof (generate_plots_returns w n1 w1 Hgen1) as Hall.
    destruct (generate_plots_ok w Hall) as [f1 [Hn1 Hgen1']]. cbv zeta in Hgen1'.
    rewrite Hgen1 in Hgen1'. injection Hgen1' as _ ->.
    set (w1 := wrote_all f1 (removed_all (png_entries w) w)).
    assert (Hall1 : renders_all (df w1)) by (unfold w1; by rewrite df_wrote_all).
    destruct (generate_plots_ok w1 Hall1) as [f2 [Hn2 Hgen2]]. cbv zeta in Hgen2.
    eexists _, _. split; [exact Hgen2|]. split.
    + unfold w1.
      rewrite (png_entries_fresh f1 _ (length catalog)), firstn_all;
        [done|apply no_png_cleared|by rewrite firstn_all].
    + rewrite (fs_log_generated (length catalog)) by by rewrite firstn_all.
      by rewrite firstn_all.
Qed.

(** C2, as the code has it.  Taking one required column out of a valid
    dataset makes generation raise: in the first recipe that refers to the
    column when the recipes before it return, and before it otherwise.  The
    artifacts of the recipes before the failing one are in the output
    directory, the artifact of that recipe and of every later one is not.
    The first recipe that refers to the column is the third to the
    fourteenth, so at least 12 of the 25 artifacts are missing.  The recipes
    before it have their columns, so that only drawing can stop them. *)
Theorem missing_column_aborts_generation w c :
  valid (df w) → c ∈ required_columns →
  let w0 := with_df (drop_col c (df w)) w in
  ∃ e w' j,
    generate_plots w0 = (inl e, w') ∧
    j ≤ first_use c ∧ 2 ≤ first_use c ≤ 13 ∧
    (∀ name, is_png name = true →
       (is_Some (plot_folder w' !! name) ↔ name ∈ take j catalog)) ∧
    fs_log w' = fs_log w ++ (Removed <$> png_entries w)
                         ++ (Written <$> take j catalog) ∧
    Forall (λ r, has_columns r.1.2 (df w0) = true) (take (first_use c) recipes) ∧
    (renders_first (first_use c) (df w0) → j = first_use c).
Proof.
  intros Hv Hc w0.
  destruct (generate_plots_missing w0 c Hc (lookup_col_drop_eq c (df w)))
    as (e & j & files & Hj & Hnames & Hgen & Hexact).
  assert (Hb : 2 ≤ first_use c ≤ 13).
  { pose proof first_use_bounds as Hb. rewrite Forall_forall in Hb. by apply Hb. }
  eexists e, _, j. split; [exact Hgen|]. split; [done|]. split; [done|].
  split; [|split; [|split; [|done]]].
  - intros name Hpng. by apply generated_png_entries.
  - by apply (fs_log_generated j files w0).
  - apply Forall_forall. intros r Hr.
    assert (Hnin : c ∉ r.1.2).
    { clear -Hr. unfold first_use in Hr. revert Hr.
      generalize recipes. intros rs. induction rs as [|r' rs IH]; simpl.
      - by intros ?%elem_of_nil.
      - destruct (decide (c ∈ r'.1.2)) as [Hin|Hnin].
        + rewrite bool_decide_eq_true_2 by done. by intros ?%elem_of_nil.
        + rewrite bool_decide_eq_false_2 by done. simpl.
          intros [->|Hr]%elem_of_cons; [done|by apply IH]. }
    apply has_columns_drop; [done| |done].
    pose proof recipes_columns_required as Hreq. rewrite Forall_forall in Hreq.
    apply Hreq. by eapply subseteq_take.
Qed.

(** ** The dataset is never written *)

Lemma keeps_df_generate_plots : keeps_df generate_plots.
Proof.
  intros w. destruct (generate_plots_any w) as (j & files & _ & _ & Hw & _).
  cbv zeta in Hw. by rewrite Hw, df_wrote_all.
Qed.

Lemma keeps_df_eda : keeps_df eda.
Proof.
  unfold eda.
  repeat first [ apply keeps_df_list_plots | apply keeps_df_generate_plots
               | keeps_df_step ].
Qed.

(** C8. No operation changes the dataset held in memory: after the home
    page handler, the chart page handler, generation, the clearing loop and
    every single recipe, whether they return or raise, the frame is the one
    they started with. *)
Theorem dataset_immutable w :
  df (home w).2 = df w ∧
  df (eda w).2 = df w ∧
  df (generate_plots w).2 = df w ∧
  df (clear_plots w).2 = df w ∧
  Forall (λ r, df (r.2 w).2 = df w) recipes.
Proof.
  split; [apply keeps_df_home|]. split; [apply keeps_df_eda|].
  split; [apply keeps_df_generate_plots|]. split; [apply keeps_df_clear_plots|].
  eapply Forall_impl; [apply keeps_df_recipes|]. intros r Hr. apply Hr.
Qed.

End GenerationFacts.

(** ** The summary metrics of the home page *)

Lemma home_spec w cat earn rat total mean :
  lookup_col "Category" (df w) = Some cat →
  lookup_col "Total_Earning" (df w) = Some earn →
  Series_sum earn = inr total →
  lookup_col "Rating" (df w) = Some rat →
  Series_mean rat = inr (NpFloat64 mean) →
  home w = (inr (mkHome (nunique cat) total (np_round 2 mean)), w).
Proof.
  intros Hc He Hs Hr Hm. unfold home, mbind, M_bind, getitem.
  rewrite Hc, He, Hs. simpl. by rewrite Hr, Hm.
Qed.

(** The count that a returning [home] reports is [nunique] of the column
    [Category]. *)
Lemma home_total_users w cat ctx w' :
  lookup_col "Category" (df w) = Some cat →
  home w = (inr ctx, w') → total_users ctx = nunique cat.
Proof.
  intros Hc. unfold home, mbind, M_bind, getitem. rewrite Hc.
  destruct (lookup_col "Total_Earning" (df w)); [|done].
  destruct (Series_sum c); simpl; [done|].
  destruct (lookup_col "Rating" (df w)); [|done].
  destruct (Series_mean c0) as [e|m]; simpl; [done|].
  destruct (round_mean 2 m); simpl; [done|].
  unfold mret, M_ret. by intros [= <- _].
Qed.

(** Without rows there is no mean to round: the handler raises. *)
Lemma home_no_listings :
  home (mkWorld no_listings empty_folder [])
  = (inl (AttributeError "round"), mkWorld no_listings empty_folder []).
Proof. reflexivity. Qed.

Lemma elem_of_unique (l : list string) x : x ∈ unique String.eqb l ↔ x ∈ l.
Proof.
  induction l as [|a l IH]; [done|]. simpl.
  rewrite !elem_of_cons, list_elem_of_In, filter_In, <- list_elem_of_In, IH.
  destruct (String.eqb_spec a x) as [->|Hne]; simpl; [tauto|].
  split; [tauto|]. intros [->|?]; [done|]. right. by split.
Qed.

Lemma NoDup_unique (l : list string) : NoDup (unique String.eqb l).
Proof.
  induction l as [|a l IH]; simpl; constructor.
  - rewrite list_elem_of_In, filter_In. intros [_ Hneg].
    by rewrite String.eqb_refl in Hneg.
  - by apply NoDup_List_filter.
Qed.

Lemma omap_id_Some (l : list string) : omap id (Some <$> l) = l.
Proof. induction l as [|a l IH]; [done|]. simpl. f_equal. apply IH. Qed.

Lemma nunique_categories (cats : list string) :
  nunique (StrCol (Some <$> cats)) = length (unique String.eqb cats).
Proof. simpl. by rewrite omap_id_Some. Qed.

(** C5. For the three listings with categories Writing, Writing, Design,
    ratings 4.0, 5.0, 3.5 and earnings 100.0, 200.0, 50.0 the home page
    reports 2 distinct categories, total earnings 350.0 and the mean rating
    rounded to two decimals, 4.17. *)
Theorem home_three_listings w :
  lookup_col "Category" (df w)
    = Some (StrCol [Some "Writing"; Some "Writing"; Some "Design"]) →
  lookup_col "Rating" (df w) = Some (FloatCol [4%float; 5%float; 3.5%float]) →
  lookup_col "Total_Earning" (df w)
    = Some (FloatCol [100%float; 200%float; 50%float]) →
  home w = (inr (mkHome 2 (SFloat 350%float) 4.17%float), w).
Proof.
  intros Hc Hr He.
  by rewrite (home_spec w _ _ _ (SFloat 350%float) (12.5 / 3)%float Hc He eq_refl Hr eq_refl).
Qed.

(** C6, as the code has it.  When the categories of the dataset are drawn
    from a closed set C, the count of distinct categories that the home page
    computes is the number of members of C that occur in the dataset: at
    most |C|, equal to |C| exactly when every member of C occurs, and 0 when
    the column is empty. *)
Theorem total_users_counts_occurring_categories (cats C : list string) :
  NoDup C → Forall (λ c, c ∈ C) cats →
  let n := nunique (StrCol (Some <$> cats)) in
  n = size (list_to_set cats : gset string) ∧
  n ≤ length C ∧
  (n = length C ↔ ∀ c, c ∈ C → c ∈ cats) ∧
  (cats = [] → n = 0) ∧
  (∀ w ctx w',
     lookup_col "Category" (df w) = Some (StrCol (Some <$> cats)) →
     home w = (inr ctx, w') → total_users ctx = n).
Proof.
  intros HC Hin. rewrite Forall_forall in Hin. cbv zeta.
  rewrite nunique_categories.
  assert (Hsub : unique String.eqb cats ⊆+ C).
  { apply NoDup_submseteq; [apply NoDup_unique|].
    intros x Hx. apply Hin. by apply elem_of_unique. }
  split; [|split; [by apply submseteq_length|split; [|split]]].
  - rewrite <- (size_list_to_set (C:=gset string)) by apply NoDup_unique.
    f_equal. apply set_eq. intros x.
    by rewrite !elem_of_list_to_set, elem_of_unique.
  - split.
    + intros Hlen c Hc'. apply elem_of_unique.
      assert (Hperm : unique String.eqb cats ≡ₚ C)
        by (apply submseteq_length_Permutation; [done|lia]).
      by rewrite Hperm.
    + intros Hall. apply Permutation_length, NoDup_Permutation;
        [apply NoDup_unique|done|].
      intros x. rewrite elem_of_unique. split; [apply Hin|apply Hall].
  - by intros ->.
  - intros w ctx w' Hc Hhome.
    by rewrite (home_total_users w _ ctx w' Hc Hhome), nunique_categories.
Qed.

(** ** Start-up *)

Section StartupFacts.
Context `{!NumpyRandom} `{!PandasIO}.

(** Opening the draws of [sample_data] one after the other. *)
Ltac open_draws :=
  repeat (match goal with
          | |- context [let '(_, _) := ?x in _] => destruct x
          end; cbn [fst snd]).

Lemma columns_sample_data n g :
  columns (sample_data n g).1
  = ["Category"; "Rating"; "Total_Earning"; "Gender"; "Language"; "Price";
     "Orders_Completed"; "Response_Time"].
Proof. unfold sample_data. open_draws. reflexivity. Qed.

Lemma rows_sample_data n g :
  draws_sized → Forall (λ kc, rows kc.2 = n) (sample_data n g).1.
Proof.
  intros (Hc & Hu & He & Hp). unfold sample_data.
  repeat match goal with
         | |- context [let '(_, _) := ?x in _] =>
             lazymatch x with
             | choice ?o ?m ?s => pose proof (Hc o m s)
             | uniform ?a ?b ?m ?s => pose proof (Hu a b m s)
             | exponential ?a ?m ?s => pose proof (He a m s)
             | poisson ?a ?m ?s => pose proof (Hp a m s)
             end;
             destruct x
         end.
  simpl in *. repeat constructor; simpl; by rewrite ?length_fmap.
Qed.

(** The frame of [sample_data], draw by draw: every column is drawn from
    the state the draw before it left. *)
Lemma sample_data_draws n g :
  let s1 := (choice categories n g).2 in
  let s2 := (uniform 3.5 5 n s1).2 in
  let s3 := (exponential 500 n s2).2 in
  let s4 := (choice genders n s3).2 in
  let s5 := (choice languages n s4).2 in
  let s6 := (uniform 5 500 n s5).2 in
  let s7 := (poisson 25 n s6).2 in
  sample_data n g
  = ([ ("Category", StrCol (Some <$> (choice categories n g).1));
       ("Rating", FloatCol (np_round 1 <$> (uniform 3.5 5 n s1).1));
       ("Total_Earning", FloatCol (np_round 2 <$> (exponential 500 n s2).1));
       ("Gender", StrCol (Some <$> (choice genders n s3).1));
       ("Language", StrCol (Some <$> (choice languages n s4).1));
       ("Price", FloatCol (np_round 2 <$> (uniform 5 500 n s5).1));
       ("Orders_Completed", IntCol (poisson 25 n s6).1);
       ("Response_Time", FloatCol (np_round 1 <$> (exponential 5 n s7).1)) ],
     (exponential 5 n s7).2).
Proof. cbv zeta. unfold sample_data. open_draws. reflexivity. Qed.

(** C7. With the dataset file absent, start-up does not fail.  It seeds the
    generator with 42 whatever state it finds, so two cold starts build the
    same frame and persist the same text.  The frame has the eight columns
    of [sample_data], each drawn with [sample_size] = 1000 values from the
    state that the draws before it left, the first from the seeded state,
    and the text written is the CSV form of that frame.  A later start
    finds the file, reads it and leaves both the file and the generator
    alone. *)
Theorem cold_start_deterministic (g1 g2 : RandomState) :
  let d := (load_df None g1).1.1 in
  let text := (load_df None g1).1.2 in
  let s0 := seed 42 in
  let s1 := (choice categories sample_size s0).2 in
  let s2 := (uniform 3.5 5 sample_size s1).2 in
  let s3 := (exponential 500 sample_size s2).2 in
  let s4 := (choice genders sample_size s3).2 in
  let s5 := (choice languages sample_size s4).2 in
  let s6 := (uniform 5 500 sample_size s5).2 in
  let s7 := (poisson 25 sample_size s6).2 in
  load_df None g2 = load_df None g1 ∧
  text = to_csv d ∧
  sample_size = 1000 ∧
  d = [ ("Category", StrCol (Some <$> (choice categories sample_size s0).1));
        ("Rating", FloatCol (np_round 1 <$> (uniform 3.5 5 sample_size s1).1));
        ("Total_Earning",
         FloatCol (np_round 2 <$> (exponential 500 sample_size s2).1));
        ("Gender", StrCol (Some <$> (choice genders sample_size s3).1));
        ("Language", StrCol (Some <$> (choice languages sample_size s4).1));
        ("Price", FloatCol (np_round 2 <$> (uniform 5 500 sample_size s5).1));
        ("Orders_Completed", IntCol (poisson 25 sample_size s6).1);
        ("Response_Time",
         FloatCol (np_round 1 <$> (exponential 5 sample_size s7).1)) ] ∧
  (load_df None g1).2 = (exponential 5 sample_size s7).2 ∧
  length d = 8 ∧
  (draws_sized → Forall (λ kc, rows kc.2 = 1000) d) ∧
  (∀ g, load_df (Some text) g = (read_csv text, text, g)).
Proof.
  cbv zeta.
  pose proof (sample_data_draws sample_size (seed 42)) as Hdraws. cbv zeta in Hdraws.
  pose proof (rows_sample_data sample_size (seed 42)) as Hrows.
  unfold load_df. rewrite Hdraws in *. cbn [fst snd].
  split; [done|]. split; [done|]. split; [done|]. split; [done|].
  split; [done|]. split; [done|]. split; [|done].
  intros Hsized. apply Hrows, Hsized.
Qed.

Section Charts.
Context `{!Plotting}.

Lemma synthetic_columns n g :
  lookup_col "Gender" (sample_data n g).1 ≠ None ∧
  lookup_col "Review_Count" (sample_data n g).1 = None ∧
  lookup_col "Level" (sample_data n g).1 = None.
Proof. unfold sample_data. open_draws. repeat split; done. Qed.

Lemma plot_avg_reviews_gender_missing w :
  lookup_col "Gender" (df w) ≠ None →
  lookup_col "Review_Count" (df w) = None →
  plot_avg_reviews_gender w
  = (inl (KeyError "Column not found: Review_Count"), w).
Proof.
  intros Hg Hr.
  unfold plot_avg_reviews_gender, groupby_select, mbind, M_bind, groupby, select.
  destruct (lookup_col "Gender" (df w)); [|done]. by rewrite Hr.
Qed.

(** C1, on the code.  The synthetic dataset has the eight columns of
    [sample_data]; neither [Level] nor [Review_Count] is among them.  It is
    not a valid dataset, and generation on it never returns: it raises in
    the fifth recipe at the latest, with the artifacts of at most the first
    four recipes written.  When the first four recipes return, it raises a
    [KeyError] for [Review_Count] in the fifth, with the artifacts of the
    first four written and no other. *)
Theorem synthetic_dataset_breaks_charts (g : RandomState) (folder : gmap string bytes) :
  let d := (load_df None g).1.1 in
  columns d = ["Category"; "Rating"; "Total_Earning"; "Gender"; "Language";
               "Price"; "Orders_Completed"; "Response_Time"] ∧
  lookup_col "Level" d = None ∧
  lookup_col "Review_Count" d = None ∧
  ¬ valid d ∧
  (∃ e w' j,
     generate_plots (start None g folder) = (inl e, w') ∧ j ≤ 4 ∧
     ∀ name, is_png name = true →
       (is_Some (plot_folder w' !! name) ↔ name ∈ take j catalog)) ∧
  (renders_first 4 d →
   ∃ w', generate_plots (start None g folder)
         = (inl (KeyError "Column not found: Review_Count"), w') ∧
         ∀ name, is_png name = true →
           (is_Some (plot_folder w' !! name) ↔ name ∈ take 4 catalog)).
Proof.
  assert (Hd : (load_df None g).1.1 = (sample_data sample_size (seed 42)).1).
  { unfold load_df. by destruct (sample_data sample_size (seed 42)). }
  destruct (synthetic_columns sample_size (seed 42)) as (Hgender & Hreview & Hlevel).
  cbv zeta. unfold start. rewrite Hd.
  set (d := (sample_data sample_size (seed 42)).1) in *.
  split; [apply columns_sample_data|]. split; [done|]. split; [done|].
  split.
  { unfold valid. rewrite has_columns_true. intros Hall.
    destruct (Hall "Level") as [c Hc]; [|congruence].
    by apply (bool_decide_unpack _). }
  set (w := mkWorld d folder []).
  set (r := ("avg_reviews_gender.png", ["Gender"; "Review_Count"],
             plot_avg_reviews_gender)).
  assert (Hk : recipes !! 4 = Some r) by reflexivity.
  assert (Hr : block_result r d = inl (KeyError "Column not found: Review_Count")).
  { unfold block_result, r. cbn [fst snd].
    by rewrite plot_avg_reviews_gender_missing. }
  pose proof (generate_plots_spec w) as Hgen. cbv zeta in Hgen.
  change (df w) with d in Hgen.
  split.
  - destruct (written_stops recipes d 4 r Hk) as [Hlen [e He]].
    { unfold recipe_returns. by rewrite Hr. }
    rewrite He in Hgen.
    eexists e, _, (length (written recipes d)). split; [exact Hgen|].
    split; [done|]. intros name Hpng.
    apply generated_png_entries; [apply written_catalog|done].
  - intros Hfour.
    destruct (written_exact recipes d 4 r _ Hk Hr Hfour) as [Hlen He].
    rewrite He in Hgen. eexists. split; [exact Hgen|].
    intros name Hpng.
    pose proof (generated_png_entries _ _ w name (written_catalog d) Hpng) as Hin.
    by rewrite Hlen in Hin.
Qed.

End Charts.
End StartupFacts.

(** ** Evaluations on concrete inputs *)

(** C2 as worded fails.  The valid frame [full_listings] without its column
    [Review_Count], on an empty folder: generation raises, and 21 of the 25
    artifacts are missing, not one. *)
Lemma one_missing_column_loses_many_artifacts :
  let w := with_df (drop_col "Review_Count" full_listings) empty_world in
  let r := @generate_plots title_render w in
  valid full_listings ∧
  "Review_Count" ∈ required_columns ∧
  r.1 = inl (KeyError "Column not found: Review_Count") ∧
  List.filter (λ name, bool_decide (plot_folder r.2 !! name = None))
              (@catalog title_render)
  = drop 4 (@catalog title_render) ∧
  length (drop 4 (@catalog title_render)) = 21 ∧
  21 ≠ 1.
Proof.
  cbv zeta. split; [by vm_compute|].
  split; [by apply (bool_decide_unpack _)|].
  split; [by vm_compute|]. split; [by vm_compute|]. split; [done|lia].
Qed.

(** C4 as worded fails.  The frame [full_listings] is valid and the folder
    is empty, but each of its review counts occurs once, and the density
    estimate of recipe 24 has a singular covariance: generation raises
    there, and the last two of the 25 artifacts are not produced. *)
Lemma valid_dataset_leaves_catalog_incomplete :
  let r := @generate_plots title_render empty_world in
  valid (df empty_world) ∧
  plot_folder empty_world = ∅ ∧
  value_counts (IntCol [12%Z; 7%Z]) = [1; 1] ∧
  r.1 = inl LinAlgError ∧
  List.filter (λ name, bool_decide (plot_folder r.2 !! name = None))
              (@catalog title_render)
  = ["review_count_kde.png"; "level_distribution.png"] ∧
  size (plot_folder r.2) = 23 ∧
  23 ≠ 25.
Proof.
  cbv zeta. split; [by vm_compute|]. split; [done|]. split; [done|].
  split; [by vm_compute|]. split; [by vm_compute|]. split; [by vm_compute|lia].
Qed.

(** C6 as worded fails.  Two listings, both of the category Writing, with
    categories drawn from the closed set of Writing and Design: the home
    page counts 1 distinct category, and the set has 2 members. *)
Lemma total_users_below_closed_set_size :
  let C := ["Writing"; "Design"] in
  let w := mkWorld two_writers empty_folder [] in
  NoDup C ∧
  Forall (λ c, c ∈ C) ["Writing"; "Writing"] ∧
  lookup_col "Category" (df w) = Some (StrCol (Some <$> ["Writing"; "Writing"])) ∧
  home w = (inr (mkHome 1 (SFloat 300%float) 4.5%float), w) ∧
  1 ≠ length C.
Proof.
  cbv zeta. split; [by apply (bool_decide_unpack _)|].
  split; [by apply (bool_decide_unpack _)|].
  split; [done|]. split; [by vm_compute|]. simpl. lia.
Qed.

Lemma synthetic_dataset_breaks_charts_witness :
  @renders_first title_render 4
     (@load_df cycling_random header_csv None 0).1.1 ∧
  ∃ w', @generate_plots title_render
          (@start cycling_random header_csv None 0 empty_folder)
        = (inl (KeyError "Column not found: Review_Count"), w').
Proof.
  assert (Hfour : @renders_first title_render 4
                    (@load_df cycling_random header_csv None 0).1.1)
    by (vm_compute; reflexivity).
  split; [exact Hfour|].
  destruct (@synthetic_dataset_breaks_charts cycling_random header_csv
              title_render 0 empty_folder)
    as (_ & _ & _ & _ & _ & Hraise).
  destruct (Hraise Hfour) as (w' & Hgen & _).
  exists w'. exact Hgen.
Defined.

Lemma generate_plots_fills_empty_folder_witness :
  valid (df six_world) ∧ plot_folder six_world = ∅ ∧
  @renders_all title_render (df six_world) ∧
  ∃ w', @generate_plots title_render six_world = (inr 25, w') ∧
        dom (plot_folder w') = list_to_set (@catalog title_render).
Proof.
  assert (Hv : valid (df six_world)) by (vm_compute; reflexivity).
  assert (He : plot_folder six_world = ∅) by reflexivity.
  assert (Hall : @renders_all title_render (df six_world))
    by (vm_compute; reflexivity).
  split; [exact Hv|]. split; [exact He|]. split; [exact Hall|].
  destruct (@generate_plots_fills_empty_folder title_render six_world Hv He)
    as (Hreturns & _).
  destruct (Hreturns Hall) as (w' & Hgen & Hdom & _).
  exists w'. split; [exact Hgen|exact Hdom].
Defined.


Lemma chart_count_counts_every_entry_witness :
  no_png css_world ∧ 0 < size (plot_folder css_world) ∧
  @renders_all title_render (df css_world) ∧
  ∃ ctx w', @eda title_render css_world = (inr ctx, w') ∧
            num_plots ctx = 26 ∧ length (plots ctx) = 25 ∧
            @eda title_render w' = (inr (mkCharts (plots ctx) 25), w').
Proof.
  assert (Hno : no_png css_world) by (vm_compute; reflexivity).
  assert (Hsz : 0 < size (plot_folder css_world)) by (vm_compute; lia).
  assert (Hall : @renders_all title_render (df css_world))
    by (vm_compute; reflexivity).
  split; [exact Hno|]. split; [exact Hsz|]. split; [exact Hall|].
  destruct (@chart_count_counts_every_entry title_render css_world)
    as (_ & Hrest).
  destruct (Hrest Hno Hsz) as (Hcount & Hreturns).
  destruct (Hreturns Hall) as (ctx & w' & Heda).
  destruct (Hcount ctx w' Heda) as (Hnum & Hlen & _ & _ & Hsecond).
  exists ctx, w'. split; [exact Heda|]. split; [exact Hnum|].
  split; [exact Hlen|exact Hsecond].
Defined.

Lemma generate_plots_clears_before_writing_witness :
  ∃ n1 w1 n2 w2,
    @generate_plots title_render stale_world = (inr n1, w1) ∧
    @generate_plots title_render w1 = (inr n2, w2) ∧
    fs_log w2 = fs_log w1 ++ (Removed <$> png_entries w1)
                          ++ (Written <$> @catalog title_render).
Proof.
  assert (H1 : @generate_plots title_render stale_world
               = (inr 26, (@generate_plots title_render stale_world).2))
    by (vm_compute; reflexivity).
  destruct (@generate_plots_clears_before_writing title_render stale_world)
    as (_ & _ & _ & _ & Htwice).
  destruct (Htwice _ _ H1) as (n2 & w2 & H2 & _ & Hlog).
  exists 26, (@generate_plots title_render stale_world).2, n2, w2.
  split; [exact H1|]. split; [exact H2|exact Hlog].
Defined.

Lemma missing_column_aborts_generation_witness :
  valid (df six_world) ∧ "Level" ∈ required_columns ∧
  @renders_first title_render (@first_use title_render "Level")
     (drop_col "Level" (df six_world)) ∧
  ∃ e w',
    @generate_plots title_render (with_df (drop_col "Level" (df six_world)) six_world)
    = (inl e, w') ∧
    ∀ name, is_png name = true →
      (is_Some (plot_folder w' !! name)
       ↔ name ∈ take (@first_use title_render "Level") (@catalog title_render)).
Proof.
  assert (Hv : valid (df six_world)) by (vm_compute; reflexivity).
  assert (Hc : "Level" ∈ required_columns)
    by (apply (bool_decide_unpack _); vm_compute; reflexivity).
  assert (Hr : @renders_first title_render (@first_use title_render "Level")
                 (drop_col "Level" (df six_world)))
    by (vm_compute; reflexivity).
  split; [exact Hv|]. split; [exact Hc|]. split; [exact Hr|].
  destruct (@missing_column_aborts_generation title_render six_world "Level" Hv Hc)
    as (e & w' & j & Hgen & _ & _ & Hfiles & _ & _ & Hexact).
  exists e, w'. split; [exact Hgen|].
  rewrite <- (Hexact Hr). exact Hfiles.
Defined.

Lemma home_three_listings_witness :
  home (mkWorld three_listings empty_folder [])
  = (inr (mkHome 2 (SFloat 350%float) 4.17%float),
     mkWorld three_listings empty_folder []).
Proof.
  apply (home_three_listings (mkWorld three_listings empty_folder []));
    reflexivity.
Defined.

Lemma total_users_counts_occurring_categories_witness :
  NoDup ["Writing"; "Design"] ∧
  Forall (λ c, c ∈ ["Writing"; "Design"]) ["Writing"; "Writing"] ∧
  nunique (StrCol (Some <$> ["Writing"; "Writing"])) ≤ 2.
Proof.
  assert (HC : NoDup ["Writing"; "Design"])
    by (apply (bool_decide_unpack _); vm_compute; reflexivity).
  assert (Hin : Forall (λ c, c ∈ ["Writing"; "Design"]) ["Writing"; "Writing"])
    by (apply (bool_decide_unpack _); vm_compute; reflexivity).
  split; [exact HC|]. split; [exact Hin|].
  destruct (total_users_counts_occurring_categories
              ["Writing"; "Writing"] ["Writing"; "Design"] HC Hin)
    as (_ & Hle & _).
  exact Hle.
Defined.

Lemma cold_start_deterministic_witness :
  @draws_sized cycling_random ∧
  @load_df cycling_random header_csv None 7
  = @load_df cycling_random header_csv None 0 ∧
  Forall (λ kc, rows kc.2 = 1000)
         (@load_df cycling_random header_csv None 0).1.1.
Proof.
  assert (Hs : @draws_sized cycling_random).
  { repeat split; intros; simpl; by rewrite length_fmap, length_seq. }
  split; [exact Hs|].
  destruct (@cold_start_deterministic cycling_random header_csv 0 7)
    as (Hsame & _ & _ & _ & _ & _ & Hrows & _).
  split; [exact Hsame|exact (Hrows Hs)].
Defined.

(** ** More on the chart page and the home page *)

Section ChartPageFacts.
Context `{!Plotting}.

#[local] Instance name_le_total : Total name_le.
Proof.
  intros a b. unfold name_le.
  destruct (String.leb_total a b) as [Hab|Hba]; [left|right];
    by apply Is_true_true.
Qed.

Lemma sorted_Sorted (l : list string) : Sorted name_le (sorted l).
Proof. apply (Sorted_merge_sort name_le). Qed.

Lemma NoDup_sorted (l : list string) : NoDup l → NoDup (sorted l).
Proof. intros Hnd. by rewrite sorted_Permutation. Qed.

(** X1. What the chart page lists.  [list_plots] returns, in ascending order
    and without repetition, exactly the entries of the folder whose names end
    in [.png]; the order in which the directory is listed does not show. *)
Theorem list_plots_sorted w :
  ∃ found,
    list_plots w = (inr found, w) ∧
    Sorted name_le found ∧ NoDup found ∧
    ∀ name, name ∈ found ↔
            is_png name = true ∧ is_Some (plot_folder w !! name).
Proof.
  exists (sorted (png_entries w)). split; [apply list_plots_spec|].
  split; [apply sorted_Sorted|].
  split; [apply NoDup_sorted, NoDup_png_entries|].
  intros name. by rewrite sorted_Permutation, elem_of_png_entries.
Qed.

(** X2. Any image file makes a cache hit.  If the folder holds an entry
    whose name ends in [.png], chart or not, the chart page never generates:
    it reports the image files there are, counts them, and leaves the world
    as it is, whatever the dataset. *)
Theorem eda_serves_any_png w name content :
  is_png name = true → plot_folder w !! name = Some content →
  ∃ found,
    eda w = (inr (mkCharts found (length found)), w) ∧
    name ∈ found ∧ found ≡ₚ png_entries w.
Proof.
  intros Hpng Hname.
  assert (Hin : name ∈ png_entries w) by (apply elem_of_png_entries; eauto).
  exists (sorted (png_entries w)).
  split; [|split; [by rewrite sorted_Permutation|apply sorted_Permutation]].
  rewrite eda_cached.
  - by rewrite (Permutation_length (sorted_Permutation _)).
  - intros Hnil. rewrite Hnil in Hin. by apply elem_of_nil in Hin.
Qed.

(** X3. A failed generation is served from then on.  On a folder without
    images, for a dataset that lacks one of the columns the recipes refer
    to, the first request for the chart page raises.  The artifacts written
    before the failure stay in the folder: those of the recipes before the
    first that refers to the column when these all return, fewer otherwise.
    If there is one at all, the next request is a cache hit: it raises
    nothing and reports those artifacts only, fewer than the 25 of the
    catalog.  If there is none, the next request fails like the first. *)
Theorem eda_serves_partial_generation w c :
  c ∈ required_columns → no_png w →
  let w0 := with_df (drop_col c (df w)) w in
  ∃ e w1 j,
    eda w0 = (inl e, w1) ∧
    j ≤ first_use c ∧ first_use c < length catalog ∧
    png_entries w1 ≡ₚ take j catalog ∧
    (0 < j → ∃ found, eda w1 = (inr (mkCharts found j), w1) ∧
                      found ≡ₚ take j catalog) ∧
    (j = 0 → eda w1 = (inl e, w1)) ∧
    (renders_first (first_use c) (df w0) → j = first_use c).
Proof.
  intros Hc Hno w0.
  assert (Hno0 : no_png w0) by exact Hno.
  destruct (generate_plots_missing w0 c Hc (lookup_col_drop_eq c (df w)))
    as (e & j & files & Hj & Hnames & Hgen & Hexact).
  rewrite Hno0, removed_all_nil in Hgen.
  set (w1 := wrote_all files w0) in *.
  assert (Hb : 2 ≤ first_use c ≤ 13).
  { pose proof first_use_bounds as Hb. rewrite Forall_forall in Hb. by apply Hb. }
  assert (Hk : length (take j catalog) = j).
  { rewrite length_take, length_catalog. lia. }
  assert (Hperm : png_entries w1 ≡ₚ take j catalog)
    by by apply png_entries_fresh.
  assert (Hfirst : eda w0 = (inl e, w1)).
  { rewrite eda_generates by done. unfold mbind, M_bind. by rewrite Hgen. }
  exists e, w1, j. split; [done|]. split; [done|].
  split; [rewrite length_catalog; lia|]. split; [done|].
  split; [|split; [|done]].
  - intros Hpos. exists (sorted (png_entries w1)).
    split; [|by rewrite sorted_Permutation].
    rewrite eda_cached.
    + by rewrite (Permutation_length Hperm), Hk.
    + intros Hnil. rewrite Hnil in Hperm. apply Permutation_length in Hperm.
      rewrite Hk in Hperm. simpl in Hperm. lia.
  - intros ->. assert (Hnil : files = []).
    { apply (f_equal length) in Hnames. rewrite length_fmap in Hnames.
      by destruct files. }
    unfold w1 in *. rewrite Hnil in *. exact Hfirst.
Qed.

Lemma cleared_other_entries w :
  plot_folder (removed_all (png_entries w) w) = other_entries (plot_folder w).
Proof.
  apply map_eq. intros name. rewrite lookup_cleared. unfold other_entries.
  apply option_eq. intros content. rewrite map_lookup_filter_Some. simpl.
  destruct (is_png name).
  - split; [done|]. by intros [_ ?].
  - split; [by intros|]. by intros [? _].
Qed.

(** X4. The number generation returns, for any folder.  For a dataset on
    which every recipe returns it is 25 plus the number of entries that are
    no image files: images found before, charts or not, are removed and do
    not count, and the folder afterwards holds those other entries and the
    25 artifacts. *)
Theorem generate_plots_count w :
  renders_all (df w) →
  ∃ w',
    generate_plots w = (inr (size (other_entries (plot_folder w)) + 25), w') ∧
    dom (plot_folder w')
    = dom (other_entries (plot_folder w)) ∪ list_to_set catalog ∧
    ∀ name, is_png name = false →
            plot_folder w' !! name = plot_folder w !! name.
Proof.
  intros Hall. destruct (generate_plots_ok w Hall) as [files [Hnames Hgen]].
  cbv zeta in Hgen. eexists. split; [|split].
  - rewrite Hgen. f_equal. f_equal.
    rewrite (size_fresh_folder files _ (length catalog));
      [|apply no_png_cleared|done|by rewrite firstn_all].
    by rewrite cleared_other_entries, length_catalog.
  - by rewrite dom_wrote_all, Hnames, cleared_other_entries.
  - intros name Hpng. rewrite lookup_wrote_all_other.
    + by rewrite lookup_cleared, Hpng.
    + rewrite Hnames. intros Hin. pose proof catalog_png as Hc.
      rewrite Forall_forall in Hc. apply Hc in Hin. congruence.
Qed.

(** X6. When generation returns.  A direct call of generation returns (a
    count, instead of raising) exactly when each of the 25 recipes, run by
    itself on the dataset, returns: no recipe depends on the folder or on
    what another recipe did.  The seven columns named by the recipes are
    needed for that. *)
Theorem generation_returns_iff_renders w :
  ((∃ n w', generate_plots w = (inr n, w')) ↔ renders_all (df w)) ∧
  ((∃ n w', generate_plots w = (inr n, w')) → valid (df w)).
Proof.
  assert (Hiff : (∃ n w', generate_plots w = (inr n, w')) ↔ renders_all (df w)).
  { split.
    - intros (n & w' & Hgen). by eapply generate_plots_returns.
    - intros Hall. destruct (generate_plots_ok w Hall) as [files [_ Hgen]]. eauto. }
  split; [done|]. intros Hret. by apply renders_all_valid, Hiff.
Qed.

End ChartPageFacts.

(** X7. The home page only reads.  Whatever the dataset, the handler leaves
    the world exactly as it is, folder and log included.  A missing column
    is reported as a [KeyError] with its name, for the first one missing in
    the order Category, Total_Earning, Rating. *)
Theorem home_read_only w :
  (home w).2 = w ∧
  (lookup_col "Category" (df w) = None → (home w).1 = inl (KeyError "Category")) ∧
  (is_Some (lookup_col "Category" (df w)) →
   lookup_col "Total_Earning" (df w) = None →
   (home w).1 = inl (KeyError "Total_Earning")) ∧
  (∀ earning total,
     is_Some (lookup_col "Category" (df w)) →
     lookup_col "Total_Earning" (df w) = Some earning →
     Series_sum earning = inr total →
     lookup_col "Rating" (df w) = None →
     (home w).1 = inl (KeyError "Rating")).
Proof.
  unfold home, mbind, M_bind, getitem. split; [|split; [|split]].
  - destruct (lookup_col "Category" (df w)); [|done].
    destruct (lookup_col "Total_Earning" (df w)) as [earning|]; [|done].
    destruct (Series_sum earning); simpl; [done|].
    destruct (lookup_col "Rating" (df w)) as [rating|]; [|done].
    destruct (Series_mean rating) as [e|m]; simpl; [done|].
    by destruct (round_mean 2 m).
  - by intros ->.
  - intros [c ->] He. by rewrite He.
  - intros earning total [c ->] He Hs Hr. rewrite He, Hs. simpl. by rewrite Hr.
Qed.

Lemma nunique_size (vals : list (option string)) :
  nunique (StrCol vals) = size (list_to_set (omap id vals) : gset string).
Proof.
  simpl. rewrite <- (size_list_to_set (C:=gset string)) by apply NoDup_unique.
  f_equal. apply set_eq. intros x.
  by rewrite !elem_of_list_to_set, elem_of_unique.
Qed.

(** X8. The count of the home page depends on the set of categories only.
    Two datasets whose [Category] columns hold the same set of values, in
    whatever order and however often, are reported with the same count of
    distinct categories whenever the handler returns for both; missing cells
    do not count. *)
Theorem home_count_of_category_set w w' vals vals' ctx ctx' w1 w1' :
  lookup_col "Category" (df w) = Some (StrCol vals) →
  lookup_col "Category" (df w') = Some (StrCol vals') →
  (list_to_set (omap id vals) : gset string) = list_to_set (omap id vals') →
  home w = (inr ctx, w1) → home w' = (inr ctx', w1') →
  total_users ctx = total_users ctx'.
Proof.
  intros Hc Hc' Hset Hhome Hhome'.
  rewrite (home_total_users _ _ _ _ Hc Hhome), (home_total_users _ _ _ _ Hc' Hhome').
  by rewrite !nunique_size, Hset.
Qed.

(** *** Evaluations of the statements above *)

Lemma eda_serves_any_png_witness :
  is_png "logo.png" = true ∧ plot_folder logo_world !! "logo.png" = Some [] ∧
  ∃ found,
    @eda title_render logo_world
    = (inr (mkCharts found (length found)), logo_world) ∧
    "logo.png" ∈ found.
Proof.
  assert (Hpng : is_png "logo.png" = true) by (vm_compute; reflexivity).
  assert (Hname : plot_folder logo_world !! "logo.png" = Some [])
    by (vm_compute; reflexivity).
  split; [exact Hpng|]. split; [exact Hname|].
  destruct (@eda_serves_any_png title_render logo_world "logo.png" [] Hpng Hname)
    as (found & Heda & Hin & _).
  exists found. split; [exact Heda|exact Hin].
Defined.

Lemma eda_serves_partial_generation_witness :
  "Level" ∈ required_columns ∧ no_png six_world ∧
  @renders_first title_render (@first_use title_render "Level")
     (drop_col "Level" (df six_world)) ∧
  ∃ e w1 found,
    @eda title_render (with_df (drop_col "Level" (df six_world)) six_world)
    = (inl e, w1) ∧
    @eda title_render w1
    = (inr (mkCharts found (@first_use title_render "Level")), w1).
Proof.
  assert (Hc : "Level" ∈ required_columns)
    by (apply (bool_decide_unpack _); vm_compute; reflexivity).
  assert (Hno : no_png six_world) by (vm_compute; reflexivity).
  assert (Hr : @renders_first title_render (@first_use title_render "Level")
                 (drop_col "Level" (df six_world)))
    by (vm_compute; reflexivity).
  assert (Hpos : 0 < @first_use title_render "Level") by (vm_compute; lia).
  split; [exact Hc|]. split; [exact Hno|]. split; [exact Hr|].
  destruct (@eda_serves_partial_generation title_render six_world "Level" Hc Hno)
    as (e & w1 & j & Hfirst & _ & _ & _ & Hhit & _ & Hexact).
  rewrite (Hexact Hr) in Hhit. destruct (Hhit Hpos) as (found & Hsecond & _).
  exists e, w1, found. split; [exact Hfirst|exact Hsecond].
Defined.

Lemma generate_plots_count_witness :
  @renders_all title_render (df stale_world) ∧
  ∃ w',
    @generate_plots title_render stale_world
    = (inr (size (other_entries (plot_folder stale_world)) + 25), w').
Proof.
  assert (Hall : @renders_all title_render (df stale_world))
    by (vm_compute; reflexivity).
  split; [exact Hall|].
  destruct (@generate_plots_count title_render stale_world Hall) as (w' & Hgen & _).
  exists w'. exact Hgen.
Defined.

Lemma generation_returns_iff_renders_witness :
  @renders_all title_render (df stale_world) ∧ valid (df stale_world).
Proof.
  assert (Hall : @renders_all title_render (df stale_world))
    by (vm_compute; reflexivity).
  split; [exact Hall|].
  destruct (@generation_returns_iff_renders title_render stale_world)
    as (Hiff & Hvalid).
  apply Hvalid, Hiff, Hall.
Defined.

Lemma home_read_only_witness :
  lookup_col "Category" (df logo_world) = None ∧
  (home logo_world).1 = inl (KeyError "Category").
Proof.
  assert (Hnone : lookup_col "Category" (df logo_world) = None) by reflexivity.
  split; [exact Hnone|].
  destruct (home_read_only logo_world) as (_ & Hcat & _).
  exact (Hcat Hnone).
Defined.

Lemma home_count_of_category_set_witness :
  ∃ ctx ctx',
    home (mkWorld three_listings empty_folder [])
    = (inr ctx, mkWorld three_listings empty_folder []) ∧
    home empty_world = (inr ctx', empty_world) ∧
    total_users ctx = total_users ctx'.
Proof.
  eexists _, _. split; [reflexivity|]. split; [reflexivity|].
  apply (home_count_of_category_set
           (mkWorld three_listings empty_folder []) empty_world
           [Some "Writing"; Some "Writing"; Some "Design"]
           [Some "Writing"; Some "Design"] _ _
           (mkWorld three_listings empty_folder []) empty_world);
    reflexivity.
Defined.

(** ** Accounts *)

Module AccountsFacts.
Import Accounts.

(** *** The table *)

Lemma find_by_username_Some (n : string) table u :
  find_by_username (Some n) table = Some u → u ∈ table ∧ username u = n.
Proof.
  simpl. intros [Hin Heq]%find_some. split; [by apply list_elem_of_In|].
  by apply String.eqb_eq.
Qed.

Lemma find_by_username_None (n : string) table :
  find_by_username (Some n) table = None → n ∉ username <$> table.
Proof.
  simpl. intros Hnone Hin. apply list_elem_of_fmap in Hin as [u [-> Hu]].
  apply list_elem_of_In in Hu.
  pose proof (find_none _ _ Hnone u Hu) as Hf. simpl in Hf.
  by rewrite String.eqb_refl in Hf.
Qed.

Lemma find_by_email_Some (e : string) table u :
  find_by_email (Some e) table = Some u → u ∈ table ∧ email u = e.
Proof.
  simpl. intros [Hin Heq]%find_some. split; [by apply list_elem_of_In|].
  by apply String.eqb_eq.
Qed.

Lemma find_by_email_None (e : string) table :
  find_by_email (Some e) table = None → e ∉ email <$> table.
Proof.
  simpl. intros Hnone Hin. apply list_elem_of_fmap in Hin as [u [-> Hu]].
  apply list_elem_of_In in Hu.
  pose proof (find_none _ _ Hnone u Hu) as Hf. simpl in Hf.
  by rewrite String.eqb_refl in Hf.
Qed.

Lemma get_Some key table u : get key table = Some u → u ∈ table ∧ id u = key.
Proof.
  unfold get. intros [Hin Heq]%find_some. split; [by apply list_elem_of_In|].
  by apply Nat.eqb_eq.
Qed.

Lemma get_is_Some key table : is_Some (get key table) ↔ key ∈ id <$> table.
Proof.
  split.
  - intros [u [Hin <-]%get_Some]. apply list_elem_of_fmap. eauto.
  - intros [u [-> Hin]]%list_elem_of_fmap. unfold get.
    destruct (List.find _ table) eqn:E; [eauto|].
    apply list_elem_of_In in Hin. pose proof (find_none _ _ E u Hin) as Hf.
    simpl in Hf. by rewrite Nat.eqb_refl in Hf.
Qed.

(** With unique keys a row is found under its key. *)
Lemma get_elem table u : NoDup (id <$> table) → u ∈ table → get (id u) table = Some u.
Proof.
  unfold get. induction table as [|v table IH]; intros Hnd Hin.
  - by apply elem_of_nil in Hin.
  - simpl in *. apply NoDup_cons in Hnd as [Hv Hnd].
    apply elem_of_cons in Hin as [->|Hin]; [by rewrite Nat.eqb_refl|].
    destruct (Nat.eqb_spec (id v) (id u)) as [Heq|Hne]; [|by apply IH].
    exfalso. apply Hv. rewrite Heq. apply list_elem_of_fmap. eauto.
Qed.

Lemma next_id_above table u : u ∈ table → id u < next_id table.
Proof.
  unfold next_id. induction table as [|v table IH]; intros Hin.
  - by apply elem_of_nil in Hin.
  - rewrite fmap_cons. cbn [foldr].
    pose proof (Nat.le_max_l (id v) (foldr Nat.max 0 (id <$> table))).
    pose proof (Nat.le_max_r (id v) (foldr Nat.max 0 (id <$> table))).
    apply elem_of_cons in Hin as [->|Hin]; [lia|].
    apply IH in Hin. lia.
Qed.

Lemma next_id_fresh table : next_id table ∉ id <$> table.
Proof.
  intros [u [Heq Hin]]%list_elem_of_fmap. apply next_id_above in Hin. lia.
Qed.

Lemma collides_false u table :
  collides u table = false ↔
  ∀ v, v ∈ table → id v ≠ id u → username v ≠ username u ∧ email v ≠ email u.
Proof.
  unfold collides. split.
  - intros Hex v Hin Hne.
    assert (Hv : negb (id v =? id u) &&
                 (String.eqb (username v) (username u) ||
                  String.eqb (email v) (email u)) = false).
    { destruct (negb _ && _) eqn:E; [|done]. rewrite <- Hex. symmetry.
      apply existsb_exists. exists v. split; [by apply list_elem_of_In|done]. }
    apply Nat.eqb_neq in Hne. rewrite Hne in Hv. simpl in Hv.
    apply orb_false_iff in Hv as [H1 H2].
    by apply String.eqb_neq in H1, H2.
  - intros Hall. destruct (existsb _ table) eqn:E; [|done].
    apply existsb_exists in E as [v [Hin Hv]]. apply list_elem_of_In in Hin.
    apply andb_true_iff in Hv as [Hid Hv]. apply negb_true_iff, Nat.eqb_neq in Hid.
    destruct (Hall v Hin Hid) as [Hn He].
    apply orb_true_iff in Hv as [Hv|Hv]; apply String.eqb_eq in Hv; done.
Qed.

Lemma delete_row_fresh u table :
  id u ∉ id <$> table → delete_row u (table ++ [u]) = table.
Proof.
  intros Hfresh. unfold delete_row. rewrite List.filter_app. simpl.
  rewrite Nat.eqb_refl. simpl. rewrite app_nil_r.
  induction table as [|v table IH]; [done|]. simpl in *.
  apply not_elem_of_cons in Hfresh as [Hne Hfresh].
  destruct (Nat.eqb_spec (id v) (id u)) as [Heq|_]; [congruence|].
  simpl. by rewrite IH.
Qed.

Lemma NoDup_snoc_fresh {A} (l : list A) (x : A) : NoDup l → x ∉ l → NoDup (l ++ [x]).
Proof.
  intros Hnd Hx. apply NoDup_app. split; [done|]. split; [|apply NoDup_singleton].
  intros y Hy Hyx. apply list_elem_of_singleton in Hyx. by subst y.
Qed.

Lemma table_ok_app table u :
  table_ok table → id u ∉ id <$> table → username u ∉ username <$> table →
  email u ∉ email <$> table → table_ok (table ++ [u]).
Proof.
  intros (Hi & Hn & He) Hid Hname Hmail. unfold table_ok.
  rewrite !fmap_app. simpl.
  split; [by apply NoDup_snoc_fresh|]. split; by apply NoDup_snoc_fresh.
Qed.

Lemma replace_row_ids u table : id <$> replace_row u table = id <$> table.
Proof.
  unfold replace_row. rewrite <- list_fmap_compose. apply list_fmap_ext.
  intros i v _. simpl. by destruct (Nat.eqb_spec (id v) (id u)) as [->|].
Qed.

(** With unique keys, replacing the row of [u] changes that row only. *)
Lemma replace_row_spec u u' table :
  NoDup (id <$> table) → u ∈ table → id u' = id u →
  replace_row u' table = (λ v, if bool_decide (v = u) then u' else v) <$> table.
Proof.
  intros Hnd Hin Hid. unfold replace_row. apply list_fmap_ext.
  intros i v Hv. apply list_elem_of_lookup_2 in Hv.
  case_bool_decide as Hvu.
  - subst v. by rewrite Hid, Nat.eqb_refl.
  - destruct (Nat.eqb_spec (id v) (id u')) as [Heq|]; [|done].
    exfalso. apply Hvu. rewrite Hid in Heq.
    pose proof (get_elem table v Hnd Hv) as Hg1.
    pose proof (get_elem table u Hnd Hin) as Hg2.
    rewrite Heq in Hg1. congruence.
Qed.

Lemma NoDup_replace_row (f : User → string) u table :
  NoDup (id <$> table) → NoDup (f <$> table) →
  (∀ v, v ∈ table → id v ≠ id u → f v ≠ f u) →
  NoDup (f <$> replace_row u table).
Proof.
  intros Hi Hf Hfresh. apply NoDup_alt. intros i j x Hx Hy.
  rewrite list_lookup_fmap in Hx, Hy. unfold replace_row in Hx, Hy.
  rewrite list_lookup_fmap in Hx, Hy.
  destruct (table !! i) as [v|] eqn:Ev; [|done].
  destruct (table !! j) as [w|] eqn:Ew; [|done].
  simpl in Hx, Hy. injection Hx as Hx. injection Hy as Hy.
  pose proof (list_elem_of_lookup_2 _ _ _ Ev) as Hv.
  pose proof (list_elem_of_lookup_2 _ _ _ Ew) as Hw.
  rewrite NoDup_alt in Hi. rewrite NoDup_alt in Hf.
  destruct (Nat.eqb_spec (id v) (id u)) as [Hvu|Hvu];
    destruct (Nat.eqb_spec (id w) (id u)) as [Hwu|Hwu].
  - apply (Hi i j (id u)); rewrite list_lookup_fmap; [by rewrite Ev, <- Hvu|by rewrite Ew, <- Hwu].
  - exfalso. apply (Hfresh w Hw Hwu). congruence.
  - exfalso. apply (Hfresh v Hv Hvu). congruence.
  - apply (Hf i j x); rewrite list_lookup_fmap; [by rewrite Ev, <- Hx|by rewrite Ew, <- Hy].
Qed.

Lemma table_ok_replace u table :
  table_ok table → collides u table = false → table_ok (replace_row u table).
Proof.
  intros (Hi & Hn & He) Hc. rewrite collides_false in Hc.
  unfold table_ok. rewrite replace_row_ids. split; [done|].
  split; apply NoDup_replace_row; try done; intros v Hv Hne; by apply Hc.
Qed.

(** A row replaced by one that keeps its name and address collides with no
    other row of a table that keeps its constraints. *)
Lemma collides_same_identity u u' table :
  table_ok table → u ∈ table → id u' = id u → username u' = username u →
  email u' = email u → collides u' table = false.
Proof.
  intros (Hi & Hn & He) Hin Hid Hname Hmail. apply collides_false.
  intros v Hv Hne. rewrite Hid in Hne. rewrite Hname, Hmail.
  split; intros Heq.
  - apply Hne. f_equal.
    apply list_elem_of_lookup in Hv as [i Hi'], Hin as [j Hj].
    rewrite NoDup_alt in Hn.
    assert (i = j) as ->; [|congruence].
    apply (Hn i j (username u)); rewrite list_lookup_fmap;
      [by rewrite Hi', <- Heq|by rewrite Hj].
  - apply Hne. f_equal.
    apply list_elem_of_lookup in Hv as [i Hi'], Hin as [j Hj].
    rewrite NoDup_alt in He.
    assert (i = j) as ->; [|congruence].
    apply (He i j (email u)); rewrite list_lookup_fmap;
      [by rewrite Hi', <- Heq|by rewrite Hj].
Qed.

Lemma find_by_username_notin (n : string) table :
  n ∉ username <$> table → find_by_username (Some n) table = None.
Proof.
  intros Hn. destruct (find_by_username (Some n) table) as [u|] eqn:E; [|done].
  apply find_by_username_Some in E as [Hin <-]. exfalso. apply Hn.
  apply list_elem_of_fmap. eauto.
Qed.

Lemma find_by_email_notin (e : string) table :
  e ∉ email <$> table → find_by_email (Some e) table = None.
Proof.
  intros Hn. destruct (find_by_email (Some e) table) as [u|] eqn:E; [|done].
  apply find_by_email_Some in E as [Hin <-]. exfalso. apply Hn.
  apply list_elem_of_fmap. eauto.
Qed.

(** A row whose name and address are new collides with no row. *)
Lemma collides_new u table :
  username u ∉ username <$> table → email u ∉ email <$> table →
  collides u table = false.
Proof.
  intros Hn He. apply collides_false. intros v Hv _. split; intros Heq.
  - apply Hn. rewrite <- Heq. apply list_elem_of_fmap. eauto.
  - apply He. rewrite <- Heq. apply list_elem_of_fmap. eauto.
Qed.

Section HandlerFacts.
Context `{!PasswordHashing} `{!TimedSerializer}.

(** *** Registration *)

(** The result of [register] on a complete form whose passwords agree and
    whose name and address are free. *)
Lemma register_free env req a name address p :
  method req = POST →
  form req !! "username" = Some name → form req !! "email" = Some address →
  form req !! "password" = Some p → form req !! "confirm_password" = Some p →
  name ∉ username <$> users a → address ∉ email <$> users a →
  let new_user :=
    mkUser (next_id (users a)) name address
           (Some (generate_password_hash (pw_salt env) p))
           "default.jpg" (now env) false default_settings in
  register env req a =
  inr (Redirect "login",
       if mail_up env then
         flash "Registration successful! A confirmation email has been sent. Please verify your email to log in."
               "success"
               (sent (mkMessage "Confirm your FreeLytix account" [address]
                                (Welcome name (dumps address (now env))))
                     (set_users (users a ++ [new_user]) a))
       else
         flash "Registration successful, but confirmation email could not be sent. Contact support."
               "error" a).
Proof.
  intros Hm Hu He Hp Hc Hname Hmail new_user. unfold register.
  rewrite Hm, Hu, He, Hp, Hc.
  rewrite bool_decide_eq_false_2 by (intros Hne; by apply Hne).
  rewrite (find_by_username_notin _ _ Hname), (find_by_email_notin _ _ Hmail).
  rewrite !bool_decide_eq_false_2 by (by intros [? ?]).
  unfold commit_insert. fold new_user.
  rewrite collides_new by done.
  destruct (mail_up env); [done|].
  rewrite delete_row_fresh by apply next_id_fresh.
  by destruct a.
Qed.

Lemma not_is_Some_None {A} (o : option A) : ¬ is_Some o → o = None.
Proof. destruct o; [|done]. intros Hn. exfalso. apply Hn. eauto. Qed.

Lemma register_total env req a :
  is_Some (form req !! "username") → is_Some (form req !! "email") →
  is_Some (form req !! "password") → ∃ r, register env req a = inr r.
Proof.
  intros [name Hu] [address He] [p Hp]. unfold register. rewrite Hu, He, Hp.
  destruct (method req); [eauto|].
  case_bool_decide; [eauto|].
  destruct (find_by_username (Some name) (users a)) as [v|] eqn:Hfu.
  { rewrite bool_decide_eq_true_2 by eauto. eauto. }
  rewrite (bool_decide_eq_false_2 (is_Some None)) by (by intros [? ?]).
  destruct (find_by_email (Some address) (users a)) as [v|] eqn:Hfe.
  { rewrite bool_decide_eq_true_2 by eauto. eauto. }
  rewrite (bool_decide_eq_false_2 (is_Some None)) by (by intros [? ?]).
  apply find_by_username_None in Hfu. apply find_by_email_None in Hfe.
  unfold commit_insert. rewrite collides_new by done.
  destruct (mail_up env); eauto.
Qed.

Lemma register_cases env req a resp a' :
  register env req a = inr (resp, a') →
  logged_in a' = logged_in a ∧
  ((users a' = users a ∧ outbox a' = outbox a) ∨
   ∃ u, users a' = users a ++ [u] ∧
        method req = POST ∧ mail_up env = true ∧
        form req !! "password" = form req !! "confirm_password" ∧
        form req !! "username" = Some (username u) ∧
        form req !! "email" = Some (email u) ∧
        (id u ∉ id <$> users a) ∧
        (username u ∉ username <$> users a) ∧
        (email u ∉ email <$> users a) ∧
        is_verified u = false ∧ prefs u = default_settings ∧
        outbox a' = outbox a ++
          [mkMessage "Confirm your FreeLytix account" [email u]
                     (Welcome (username u) (dumps (email u) (now env)))]).
Proof.
  unfold register. destruct (method req) eqn:Hm.
  { intros [= <- <-]. split; [done|]. by left. }
  destruct (decide (form req !! "password" = form req !! "confirm_password"))
    as [Hpc|Hpc].
  2: { rewrite bool_decide_eq_true_2 by done.
       intros [= <- <-]. split; [done|]. by left. }
  rewrite (bool_decide_eq_false_2 (_ ≠ _)) by (intros Hne; by apply Hne).
  destruct (find_by_username (form req !! "username") (users a)) as [v|] eqn:Hfu.
  { rewrite bool_decide_eq_true_2 by eauto.
    intros [= <- <-]. split; [done|]. by left. }
  rewrite (bool_decide_eq_false_2 (is_Some None)) by (by intros [? ?]).
  destruct (find_by_email (form req !! "email") (users a)) as [v|] eqn:Hfe.
  { rewrite bool_decide_eq_true_2 by eauto.
    intros [= <- <-]. split; [done|]. by left. }
  rewrite (bool_decide_eq_false_2 (is_Some None)) by (by intros [? ?]).
  destruct (form req !! "password") as [p|] eqn:Hp; [|done].
  destruct (form req !! "username") as [name|] eqn:Hu; [|done].
  destruct (form req !! "email") as [address|] eqn:He; [|done].
  apply find_by_username_None in Hfu. apply find_by_email_None in Hfe.
  unfold commit_insert. rewrite collides_new by done.
  destruct (mail_up env) eqn:Hmail; intros [= <- <-]; (split; [done|]).
  - right. eexists. split; [reflexivity|]. simpl.
    repeat (split; [done || apply next_id_fresh|]). done.
  - left. simpl. by rewrite delete_row_fresh by apply next_id_fresh.
Qed.

(** X9. Every way [register] can return.  It leaves the table and the mails
    as they are, or it appends one row and sends one mail; it appends only
    on a POST whose passwords agree, whose name and address are new and whose
    mail was accepted, and the row is unverified with the default settings.
    Nobody is logged in or out.  A complete form never makes it raise. *)
Theorem register_outcomes env req a :
  (is_Some (form req !! "username") → is_Some (form req !! "email") →
   is_Some (form req !! "password") → ∃ r, register env req a = inr r) ∧
  ∀ resp a', register env req a = inr (resp, a') →
    logged_in a' = logged_in a ∧
    ((users a' = users a ∧ outbox a' = outbox a) ∨
     ∃ u, users a' = users a ++ [u] ∧
          method req = POST ∧ mail_up env = true ∧
          form req !! "password" = form req !! "confirm_password" ∧
          form req !! "username" = Some (username u) ∧
          form req !! "email" = Some (email u) ∧
          (id u ∉ id <$> users a) ∧
          (username u ∉ username <$> users a) ∧
          (email u ∉ email <$> users a) ∧
          is_verified u = false ∧ prefs u = default_settings ∧
          outbox a' = outbox a ++
            [mkMessage "Confirm your FreeLytix account" [email u]
                       (Welcome (username u) (dumps (email u) (now env)))]).
Proof. split; [apply register_total|apply register_cases]. Qed.

(** X10. A registration whose mail is refused.  With a complete form, agreeing
    passwords and a free name and address, the handler redirects to the
    login page and flashes a message that begins with "Registration
    successful", while the row it had committed is deleted again: table and
    mails are as before, and the same registration can be repeated. *)
Theorem register_mail_refused env req a name address p :
  method req = POST →
  form req !! "username" = Some name → form req !! "email" = Some address →
  form req !! "password" = Some p → form req !! "confirm_password" = Some p →
  (name ∉ username <$> users a) → (address ∉ email <$> users a) →
  mail_up env = false →
  ∃ a',
    register env req a = inr (Redirect "login", a') ∧
    users a' = users a ∧ outbox a' = outbox a ∧ logged_in a' = logged_in a ∧
    flashed a a' [("Registration successful, but confirmation email could not be sent. Contact support.", "error")] ∧
    find_by_username (Some name) (users a') = None ∧
    find_by_email (Some address) (users a') = None.
Proof.
  intros Hm Hu He Hp Hc Hname Hmail Hdown.
  pose proof (register_free env req a name address p Hm Hu He Hp Hc Hname Hmail)
    as Hreg. cbv zeta in Hreg. rewrite Hdown in Hreg.
  eexists. split; [exact Hreg|]. cbn [users flash].
  repeat (split; [done|]).
  split; [by apply find_by_username_notin|by apply find_by_email_notin].
Qed.

(** *** Logging in *)

Lemma login_cases req a resp a' :
  login req a = inr (resp, a') →
  users a' = users a ∧ outbox a' = outbox a ∧
  ((resp = Render "login.html" None ∧ logged_in a' = logged_in a) ∨
   ∃ u h p,
     resp = Redirect "home" ∧ method req = POST ∧ u ∈ users a ∧
     form req !! "username" = Some (username u) ∧
     form req !! "password" = Some p ∧
     password_hash u = Some h ∧ check_password_hash h p = true ∧
     is_verified u = true ∧
     logged_in a' = (Some (id u), Some (username u))).
Proof.
  unfold login. destruct (method req) eqn:Hm.
  { intros [= <- <-]. split; [done|]. split; [done|]. by left. }
  destruct (form req !! "username") as [name|] eqn:Hu.
  2: { simpl. intros [= <- <-]. split; [done|]. split; [done|]. by left. }
  destruct (find_by_username (Some name) (users a)) as [u|] eqn:Hf.
  2: { intros [= <- <-]. split; [done|]. split; [done|]. by left. }
  apply find_by_username_Some in Hf as [Hin <-].
  unfold check_password.
  destruct (password_hash u) as [h|] eqn:Hh; [|done].
  destruct (form req !! "password") as [p|] eqn:Hp; [|done].
  destruct (check_password_hash h p) eqn:Hc.
  2: { intros [= <- <-]. split; [done|]. split; [done|]. by left. }
  destruct (is_verified u) eqn:Hv; simpl; intros [= <- <-];
    (split; [done|]); (split; [done|]).
  - right. exists u, h, p. by repeat split.
  - by left.
Qed.

(** X11. Every way [login] can return.  It never touches the table or the
    mails.  It either renders the login page and leaves the session keys as
    they are, or it redirects to the home page, and then the form named a
    verified row whose stored hash accepts the password given, and the
    session holds the key and the name of that row. *)
Theorem login_outcomes req a resp a' :
  login req a = inr (resp, a') →
  users a' = users a ∧ outbox a' = outbox a ∧
  ((resp = Render "login.html" None ∧ logged_in a' = logged_in a) ∨
   ∃ u h p,
     resp = Redirect "home" ∧ method req = POST ∧ u ∈ users a ∧
     form req !! "username" = Some (username u) ∧
     form req !! "password" = Some p ∧
     password_hash u = Some h ∧ check_password_hash h p = true ∧
     is_verified u = true ∧
     logged_in a' = (Some (id u), Some (username u))).
Proof. apply login_cases. Qed.

(** The two results of [login] for a row that the form names with a
    password its hash accepts. *)
Lemma login_accepted req a u h p :
  method req = POST →
  form req !! "username" = Some (username u) → form req !! "password" = Some p →
  find_by_username (Some (username u)) (users a) = Some u →
  password_hash u = Some h → check_password_hash h p = true →
  login req a =
  inr (if is_verified u then
         (Redirect "home",
          flash "Login successful!" "success"
                (mkApp (users a)
                       (mkSession (Some (id u)) (Some (username u))
                                  (flashes (session a)))
                       (outbox a)))
       else
         (Render "login.html" None,
          flash "Please verify your email before logging in. Check your inbox (or resend verification)."
                "error" a)).
Proof.
  intros Hm Hu Hp Hf Hh Hc. unfold login, check_password.
  rewrite Hm, Hu, Hp, Hf, Hh, Hc. by destruct (is_verified u).
Qed.

(** *** Confirming an address *)

Lemma confirm_email_unverified env token a address u :
  loads token (now env) 3600 = Payload address →
  find_by_email (Some address) (users a) = Some u → is_verified u = false →
  confirm_email env token a
  = inr (Redirect "login",
         flash "Email verified successfully! You can now log in." "success"
               (set_users (replace_row (set_verified true u) (users a)) a)).
Proof. intros Hl Hf Hv. unfold confirm_email. by rewrite Hl, Hf, Hv. Qed.

Lemma confirm_email_verified env token a address u :
  loads token (now env) 3600 = Payload address →
  find_by_email (Some address) (users a) = Some u → is_verified u = true →
  confirm_email env token a
  = inr (Redirect "login",
         flash "Account already verified. Please log in." "info" a).
Proof. intros Hl Hf Hv. unfold confirm_email. by rewrite Hl, Hf, Hv. Qed.

Lemma confirm_email_cases env token a :
  table_ok (users a) →
  ∃ resp a',
    confirm_email env token a = inr (resp, a') ∧
    logged_in a' = logged_in a ∧ outbox a' = outbox a ∧
    table_ok (users a') ∧
    Forall2 verified_more (users a) (users a') ∧
    (users a' = users a ∨
     ∃ u, u ∈ users a ∧ loads token (now env) 3600 = Payload (email u) ∧
          users a' = (λ v, if bool_decide (v = u) then set_verified true u else v)
                       <$> users a) ∧
    ∀ resp2 a2, confirm_email env token a' = inr (resp2, a2) → users a2 = users a'.
Proof.
  intros Hok.
  assert (Hrefl : Forall2 verified_more (users a) (users a)).
  { apply Forall2_same_length_lookup. split; [done|].
    intros i x y Hx Hy. left. congruence. }
  unfold confirm_email.
  destruct (loads token (now env) 3600) as [address| |] eqn:Hl.
  2, 3: eexists _, _; (split; [reflexivity|]); simpl;
        repeat (split; [done || by left|]);
        by intros resp2 a2 [= _ <-].
  destruct (find_by_email (Some address) (users a)) as [u|] eqn:Hf.
  2: { eexists _, _. split; [reflexivity|]. simpl.
       repeat (split; [done || by left|]).
       unfold find_by_email in Hf. rewrite Hf. by intros resp2 a2 [= _ <-]. }
  destruct (is_verified u) eqn:Hv.
  { eexists _, _. split; [reflexivity|]. simpl.
    repeat (split; [done || by left|]).
    unfold find_by_email in Hf. rewrite Hf, Hv. by intros resp2 a2 [= _ <-]. }
  pose proof Hf as [Hin Hmail]%find_by_email_Some.
  pose proof Hok as (Hi & Hn & He).
  set (u' := set_verified true u).
  assert (Hspec : replace_row u' (users a)
                  = (λ v, if bool_decide (v = u) then u' else v) <$> users a)
    by by apply replace_row_spec.
  assert (Hok' : table_ok (replace_row u' (users a))).
  { apply table_ok_replace; [done|]. by apply (collides_same_identity u). }
  eexists _, _. split; [reflexivity|]. cbn [users flash set_users].
  split; [done|]. split; [done|]. split; [done|]. split; [|split].
  - rewrite Hspec. apply Forall2_fmap_r, Forall2_same_length_lookup.
    split; [done|]. intros i x y Hx Hy. assert (x = y) as <- by congruence.
    unfold compose. case_bool_decide as Hxu; [|by left]. subst x. by right.
  - right. exists u. by rewrite Hmail.
  - assert (Hin' : u' ∈ replace_row u' (users a)).
    { rewrite Hspec. apply list_elem_of_fmap. exists u.
      by rewrite bool_decide_eq_true_2. }
    destruct (find_by_email (Some address) (replace_row u' (users a)))
      as [w|] eqn:Hf'.
    2: { apply find_by_email_None in Hf'. exfalso. apply Hf'.
         apply list_elem_of_fmap. exists u'. by rewrite <- Hmail. }
    pose proof Hf' as [Hw Hwmail]%find_by_email_Some.
    assert (w = u') as ->.
    { destruct Hok' as (_ & _ & He').
      apply list_elem_of_lookup in Hw as [i Hi'], Hin' as [j Hj].
      rewrite NoDup_alt in He'.
      assert (i = j) as ->; [|congruence].
      apply (He' i j address); rewrite list_lookup_fmap;
        [by rewrite Hi', <- Hwmail|by rewrite Hj, <- Hmail]. }
    intros resp2 a2. subst u'. cbn [is_verified set_verified].
    by intros [= _ <-].
Qed.

(** X12. What [confirm_email] does to the table.  It always returns.  Every
    row stays as it is or goes from unverified to verified, with nothing else
    changed; a row changes only when the token loads to its address.  Session
    keys and mails stay, and confirming the same token again at the same time
    changes nothing more. *)
Theorem confirm_email_outcomes env token a :
  table_ok (users a) →
  ∃ resp a',
    confirm_email env token a = inr (resp, a') ∧
    logged_in a' = logged_in a ∧ outbox a' = outbox a ∧
    table_ok (users a') ∧
    Forall2 verified_more (users a) (users a') ∧
    (users a' = users a ∨
     ∃ u, u ∈ users a ∧ loads token (now env) 3600 = Payload (email u) ∧
          users a' = (λ v, if bool_decide (v = u) then set_verified true u else v)
                       <$> users a) ∧
    ∀ resp2 a2, confirm_email env token a' = inr (resp2, a2) → users a2 = users a'.
Proof. apply confirm_email_cases. Qed.

(** *** From registration to the first login *)

(** X13. The way in.  A registration with a free name and address, whose mail
    goes out, creates an account that cannot log in yet: with the very
    password it is sent back to the login page.  Confirming the mailed token
    while it still loads verifies the account, and then the same login
    succeeds and the session names the new row.  (The hash is assumed to
    accept the password it was made from.) *)
Theorem register_confirm_login env env' req req' a name address p :
  check_password_hash (generate_password_hash (pw_salt env) p) p = true →
  loads (dumps address (now env)) (now env') 3600 = Payload address →
  table_ok (users a) →
  method req = POST →
  form req !! "username" = Some name → form req !! "email" = Some address →
  form req !! "password" = Some p → form req !! "confirm_password" = Some p →
  (name ∉ username <$> users a) → (address ∉ email <$> users a) →
  mail_up env = true →
  method req' = POST →
  form req' !! "username" = Some name → form req' !! "password" = Some p →
  ∃ a1 a2 a3 a4 msg,
    register env req a = inr (Redirect "login", a1) ∧
    outbox a1 = outbox a ++ [msg] ∧
    body msg = Welcome name (dumps address (now env)) ∧
    login req' a1 = inr (Render "login.html" None, a2) ∧
    logged_in a2 = logged_in a ∧
    confirm_email env' (dumps address (now env)) a2 = inr (Redirect "login", a3) ∧
    login req' a3 = inr (Redirect "home", a4) ∧
    logged_in a4 = (Some (next_id (users a)), Some name) ∧
    ∃ u, get (next_id (users a)) (users a4) = Some u ∧
         username u = name ∧ email u = address ∧ is_verified u = true ∧
         take (length (users a)) (users a4) = users a.
Proof.
  intros Hhash Htoken Hok Hm Hu He Hp Hc Hname Hmail Hup Hm' Hu' Hp'.
  pose proof (register_free env req a name address p Hm Hu He Hp Hc Hname Hmail)
    as Hreg. cbv zeta in Hreg. rewrite Hup in Hreg.
  set (u := mkUser (next_id (users a)) name address
                   (Some (generate_password_hash (pw_salt env) p))
                   "default.jpg" (now env) false default_settings) in *.
  assert (Hok1 : table_ok (users a ++ [u])).
  { apply table_ok_app; [done|apply next_id_fresh|done|done]. }
  assert (Hin : u ∈ users a ++ [u]).
  { apply elem_of_app. right. by left. }
  assert (Hfind : ∀ v, v ∈ users a ++ [u] → username v = name → v = u).
  { intros v Hv Hvn. destruct Hok1 as (_ & Hn1 & _).
    apply list_elem_of_lookup in Hv as [i Hi'], Hin as [j Hj].
    rewrite NoDup_alt in Hn1. assert (i = j) as ->; [|congruence].
    apply (Hn1 i j name); rewrite list_lookup_fmap;
      [by rewrite Hi', <- Hvn|by rewrite Hj]. }
  assert (Hfindm : ∀ v, v ∈ users a ++ [u] → email v = address → v = u).
  { intros v Hv Hvn. destruct Hok1 as (_ & _ & He1).
    apply list_elem_of_lookup in Hv as [i Hi'], Hin as [j Hj].
    rewrite NoDup_alt in He1. assert (i = j) as ->; [|congruence].
    apply (He1 i j address); rewrite list_lookup_fmap;
      [by rewrite Hi', <- Hvn|by rewrite Hj]. }
  (* the login before the confirmation *)
  assert (Hfu : find_by_username (Some name) (users a ++ [u]) = Some u).
  { destruct (find_by_username (Some name) (users a ++ [u])) as [v|] eqn:E.
    - apply find_by_username_Some in E as [Hv Hvn]. f_equal. by apply Hfind.
    - apply find_by_username_None in E. exfalso. apply E.
      apply list_elem_of_fmap. by exists u. }
  assert (Hfe : find_by_email (Some address) (users a ++ [u]) = Some u).
  { destruct (find_by_email (Some address) (users a ++ [u])) as [v|] eqn:E.
    - apply find_by_email_Some in E as [Hv Hvn]. f_equal. by apply Hfindm.
    - apply find_by_email_None in E. exfalso. apply E.
      apply list_elem_of_fmap. by exists u. }
  set (u' := set_verified true u).
  assert (Hspec : replace_row u' (users a ++ [u]) = users a ++ [u']).
  { unfold replace_row. rewrite fmap_app. simpl. rewrite Nat.eqb_refl. f_equal.
    rewrite <- (list_fmap_id (users a)) at 2. apply list_fmap_ext.
    intros i v Hv. apply list_elem_of_lookup_2 in Hv.
    destruct (Nat.eqb_spec (id v) (next_id (users a))) as [Heq|]; [|done].
    apply next_id_above in Hv. simpl in Heq. lia. }
  assert (Hok3 : table_ok (users a ++ [u'])).
  { apply table_ok_app; [done|apply next_id_fresh|done|done]. }
  assert (Hfu' : find_by_username (Some name) (users a ++ [u']) = Some u').
  { destruct (find_by_username (Some name) (users a ++ [u'])) as [v|] eqn:E.
    - apply find_by_username_Some in E as [Hv Hvn]. f_equal.
      apply elem_of_app in Hv as [Hv|Hv%list_elem_of_singleton]; [|done].
      exfalso. apply Hname. rewrite <- Hvn. apply list_elem_of_fmap. eauto.
    - apply find_by_username_None in E. exfalso. apply E.
      apply list_elem_of_fmap. exists (set_verified true u). split; [done|].
      apply elem_of_app. right. by left. }
  subst u'.
  match type of Hreg with _ = inr (_, ?x) => set (a1 := x) in * end.
  assert (Hlog1 : login req' a1
                  = inr (Render "login.html" None,
                         flash "Please verify your email before logging in. Check your inbox (or resend verification)."
                               "error" a1)).
  { by rewrite (login_accepted req' a1 u (generate_password_hash (pw_salt env) p) p
                  Hm' Hu' Hp' Hfu eq_refl Hhash). }
  match type of Hlog1 with _ = inr (_, ?x) => set (a2 := x) in * end.
  assert (Hconf : confirm_email env' (dumps address (now env)) a2
                  = inr (Redirect "login",
                         flash "Email verified successfully! You can now log in." "success"
                               (set_users (replace_row (set_verified true u) (users a2)) a2))).
  { by apply (confirm_email_unverified _ _ _ address u). }
  match type of Hconf with _ = inr (_, ?x) => set (a3 := x) in * end.
  assert (Husers3 : users a3 = users a ++ [set_verified true u]) by exact Hspec.
  assert (Hlog2 : login req' a3
                  = inr (Redirect "home",
                         flash "Login successful!" "success"
                               (mkApp (users a3)
                                      (mkSession (Some (next_id (users a))) (Some name)
                                                 (flashes (session a3)))
                                      (outbox a3)))).
  { rewrite (login_accepted req' a3 (set_verified true u)
               (generate_password_hash (pw_salt env) p) p Hm' Hu' Hp');
      [reflexivity|by rewrite Husers3|reflexivity|exact Hhash]. }
  eexists a1, a2, a3, _, _. split; [exact Hreg|]. split; [reflexivity|].
  split; [reflexivity|]. split; [exact Hlog1|]. split; [done|].
  split; [exact Hconf|]. split; [exact Hlog2|]. split; [done|].
  exists (set_verified true u).
  change (users (flash _ _ (mkApp (users a3) _ _))) with (users a3).
  rewrite Husers3.
  split; [|split; [done|split; [done|split; [done|by rewrite take_app_length]]]].
  apply (get_elem (users a ++ [set_verified true u]) (set_verified true u)); [apply Hok3|].
  apply elem_of_app. right. by left.
Qed.

(** *** Logging out *)

(** X14. After [logout] the session is empty but for the one message it
    flashes, so messages still pending are dropped with the keys; the table
    stays.  The pages that need a login then answer with a redirect to the
    login page and change no row. *)
Theorem logout_then_protected_pages env req a :
  ∃ a1,
    logout a = inr (Redirect "home", a1) ∧
    users a1 = users a ∧ outbox a1 = outbox a ∧
    session a1 = mkSession None None [("You have been logged out", "info")] ∧
    current_user a1 = None ∧
    (∃ a2, profile env req a1 = inr (Redirect "login", a2) ∧ users a2 = users a) ∧
    (∃ a2, settings req a1 = inr (Redirect "login", a2) ∧ users a2 = users a) ∧
    about a1 = inr (Render "about.html" None, a1).
Proof.
  eexists. split; [reflexivity|]. repeat (split; [done|]).
  split; [by eexists|]. split; [by eexists|]. done.
Qed.

(** *** The profile page *)

Lemma collides_true u table :
  collides u table = true ↔
  ∃ v, v ∈ table ∧ id v ≠ id u ∧ (username v = username u ∨ email v = email u).
Proof.
  unfold collides. rewrite existsb_exists. split.
  - intros [v [Hin Hv]]. exists v. apply list_elem_of_In in Hin.
    apply andb_true_iff in Hv as [Hid Hv]. apply negb_true_iff, Nat.eqb_neq in Hid.
    split; [done|]. split; [done|].
    apply orb_true_iff in Hv as [Hv|Hv]; apply String.eqb_eq in Hv; auto.
  - intros [v (Hin & Hid & Hv)]. exists v. split; [by apply list_elem_of_In|].
    apply andb_true_iff. split; [by apply negb_true_iff, Nat.eqb_neq|].
    apply orb_true_iff. destruct Hv as [Hv|Hv]; [left|right]; by apply String.eqb_eq.
Qed.

Lemma profile_cases env req a resp a' :
  profile env req a = inr (resp, a') →
  logged_in a' = logged_in a ∧ outbox a' = outbox a ∧
  (users a' = users a ∨
   ∃ key u name address h,
     method req = POST ∧
     session_user_id (session a) = Some key ∧ get key (users a) = Some u ∧
     form req !! "username" = Some name ∧ form req !! "email" = Some address ∧
     collides (set_identity name address (set_password_hash h u)) (users a) = false ∧
     users a' = replace_row (set_identity name address (set_password_hash h u)) (users a) ∧
     (h = password_hash u ∨
      ∃ p, p ≠ EmptyString ∧ form req !! "new_password" = Some p ∧
           form req !! "confirm_password" = Some p ∧
           h = Some (generate_password_hash (pw_salt env) p))).
Proof.
  unfold profile. destruct (session_user_id (session a)) as [key|] eqn:Hk.
  2: { intros [= <- <-]. split; [done|]. split; [done|]. by left. }
  destruct (method req) eqn:Hm.
  { intros [= <- <-]. split; [done|]. split; [done|]. by left. }
  destruct (get key (users a)) as [u|] eqn:Hg; [|done].
  destruct (form req !! "username") as [name|] eqn:Hu.
  2: { by destruct (form req !! "new_password");
         repeat case_bool_decide. }
  destruct (form req !! "email") as [address|] eqn:He.
  2: { by destruct (form req !! "new_password");
         repeat case_bool_decide. }
  destruct (form req !! "new_password") as [p|] eqn:Hp.
  2: { unfold commit_update.
       destruct (collides (set_identity name address u) (users a)) eqn:Hc; [done|].
       intros [= <- <-]. split; [done|]. split; [done|]. right.
       exists key, u, name, address, (password_hash u).
       repeat (split; [done|]). by left. }
  case_bool_decide as Hempty.
  { unfold commit_update.
    destruct (collides (set_identity name address u) (users a)) eqn:Hc; [done|].
    intros [= <- <-]. split; [done|]. split; [done|]. right.
    exists key, u, name, address, (password_hash u).
    repeat (split; [done|]). by left. }
  case_bool_decide as Hconfirm; unfold commit_update.
  - destruct (collides _ (users a)) eqn:Hc; [done|].
    intros [= <- <-]. split; [done|]. split; [done|]. right.
    exists key, u, name, address, (Some (generate_password_hash (pw_salt env) p)).
    repeat (split; [done|]). right. by exists p.
  - destruct (collides (set_identity name address u) (users a)) eqn:Hc; [done|].
    intros [= <- <-]. split; [done|]. split; [done|]. right.
    exists key, u, name, address, (password_hash u).
    repeat (split; [done|]). by left.
Qed.

(** The same, with the stored hash pinned down. *)
Lemma profile_exact env req a resp a' :
  profile env req a = inr (resp, a') →
  logged_in a' = logged_in a ∧ outbox a' = outbox a ∧
  (((session_user_id (session a) = None ∨ method req = GET) ∧
    users a' = users a) ∨
   ∃ key u name address h,
     method req = POST ∧
     session_user_id (session a) = Some key ∧ get key (users a) = Some u ∧
     form req !! "username" = Some name ∧ form req !! "email" = Some address ∧
     collides (set_identity name address (set_password_hash h u)) (users a) = false ∧
     users a' = replace_row (set_identity name address (set_password_hash h u)) (users a) ∧
     ((∃ p, p ≠ EmptyString ∧ form req !! "new_password" = Some p ∧
            form req !! "confirm_password" = Some p ∧
            h = Some (generate_password_hash (pw_salt env) p)) ∨
      ((∀ p, form req !! "new_password" = Some p →
             p = EmptyString ∨ form req !! "confirm_password" ≠ Some p) ∧
       h = password_hash u))).
Proof.
  unfold profile. destruct (session_user_id (session a)) as [key|] eqn:Hk.
  2: { intros [= <- <-]. split; [done|]. split; [done|]. left. split; [by left|done]. }
  destruct (method req) eqn:Hm.
  { intros [= <- <-]. split; [done|]. split; [done|]. left. split; [by right|done]. }
  destruct (get key (users a)) as [u|] eqn:Hg; [|done].
  destruct (form req !! "username") as [name|] eqn:Hu.
  2: { by destruct (form req !! "new_password");
         repeat case_bool_decide. }
  destruct (form req !! "email") as [address|] eqn:He.
  2: { by destruct (form req !! "new_password");
         repeat case_bool_decide. }
  destruct (form req !! "new_password") as [p|] eqn:Hp.
  2: { unfold commit_update.
       destruct (collides (set_identity name address u) (users a)) eqn:Hc; [done|].
       intros [= <- <-]. split; [done|]. split; [done|]. right.
       exists key, u, name, address, (password_hash u).
       repeat (split; [done|]). right. split; [|done]. by intros p'. }
  case_bool_decide as Hempty.
  { unfold commit_update.
    destruct (collides (set_identity name address u) (users a)) eqn:Hc; [done|].
    intros [= <- <-]. split; [done|]. split; [done|]. right.
    exists key, u, name, address, (password_hash u).
    repeat (split; [done|]). right. split; [|done].
    intros p' [= <-]. by left. }
  case_bool_decide as Hconfirm; unfold commit_update.
  - destruct (collides _ (users a)) eqn:Hc; [done|].
    intros [= <- <-]. split; [done|]. split; [done|]. right.
    exists key, u, name, address, (Some (generate_password_hash (pw_salt env) p)).
    repeat (split; [done|]). left. by exists p.
  - destruct (collides (set_identity name address u) (users a)) eqn:Hc; [done|].
    intros [= <- <-]. split; [done|]. split; [done|]. right.
    exists key, u, name, address, (password_hash u).
    repeat (split; [done|]). right. split; [|done].
    intros p' [= <-]. right. by intros Heq.
Qed.

(** X15. Every way [profile] can return.  The session keeps its key and its
    name, also when the row is renamed, and no mail is sent.  Without a
    login and on a GET the table stays.  On a POST the row of the session is
    replaced: name and address become those of the form; the verification
    flag, the settings, the picture and the date stay; the hash becomes the
    hash of the new password when the form holds one that is not empty and
    equals its confirmation, and stays as it is in every other case. *)
Theorem profile_outcomes env req a resp a' :
  profile env req a = inr (resp, a') →
  logged_in a' = logged_in a ∧ outbox a' = outbox a ∧
  (((session_user_id (session a) = None ∨ method req = GET) ∧
    users a' = users a) ∨
   ∃ key u name address h,
     method req = POST ∧
     session_user_id (session a) = Some key ∧ get key (users a) = Some u ∧
     form req !! "username" = Some name ∧ form req !! "email" = Some address ∧
     collides (set_identity name address (set_password_hash h u)) (users a) = false ∧
     users a' = replace_row (set_identity name address (set_password_hash h u)) (users a) ∧
     ((∃ p, p ≠ EmptyString ∧ form req !! "new_password" = Some p ∧
            form req !! "confirm_password" = Some p ∧
            h = Some (generate_password_hash (pw_salt env) p)) ∨
      ((∀ p, form req !! "new_password" = Some p →
             p = EmptyString ∨ form req !! "confirm_password" ≠ Some p) ∧
       h = password_hash u))).
Proof. apply profile_exact. Qed.

(** X16. A profile form whose new password and confirmation differ.  The
    handler flashes that the passwords do not match, and still commits the
    name and the address of the form and flashes that the profile was
    updated; the stored hash is the old one. *)
Theorem profile_password_mismatch env req a key u name address p :
  session_user_id (session a) = Some key → get key (users a) = Some u →
  method req = POST →
  form req !! "username" = Some name → form req !! "email" = Some address →
  form req !! "new_password" = Some p → p ≠ EmptyString →
  form req !! "confirm_password" ≠ Some p →
  collides (set_identity name address u) (users a) = false →
  ∃ a',
    profile env req a = inr (Redirect "profile", a') ∧
    users a' = replace_row (set_identity name address u) (users a) ∧
    password_hash (set_identity name address u) = password_hash u ∧
    flashed a a' [("Passwords do not match", "error");
                  ("Profile updated successfully", "success")] ∧
    logged_in a' = logged_in a.
Proof.
  intros Hk Hg Hm Hu He Hp Hne Hconfirm Hc. unfold profile.
  rewrite Hk, Hm, Hg, Hu, He, Hp.
  rewrite bool_decide_eq_false_2 by done.
  rewrite bool_decide_eq_false_2 by (intros Heq; by apply Hconfirm).
  unfold commit_update. rewrite Hc.
  eexists. split; [reflexivity|]. cbn [users flash set_users].
  repeat (split; [done|]). split; [|done].
  unfold flashed. cbn. by rewrite <- app_assoc.
Qed.

(** X17. When the commit of [profile] is refused.  For a logged-in user who
    posts a name and an address, the handler raises an integrity error
    exactly when another row of the table already holds that name or that
    address; the handler does not check this itself. *)
Theorem profile_integrity_error env req a key u name address :
  session_user_id (session a) = Some key → get key (users a) = Some u →
  method req = POST →
  form req !! "username" = Some name → form req !! "email" = Some address →
  profile env req a = inl IntegrityError ↔
  ∃ v, v ∈ users a ∧ id v ≠ id u ∧ (username v = name ∨ email v = address).
Proof.
  intros Hk Hg Hm Hu He.
  assert (Hcol : ∀ h,
    collides (set_identity name address (set_password_hash h u)) (users a) = true ↔
    ∃ v, v ∈ users a ∧ id v ≠ id u ∧ (username v = name ∨ email v = address))
    by (intros h; apply collides_true).
  unfold profile. rewrite Hk, Hm, Hg, Hu, He.
  destruct (form req !! "new_password") as [p|] eqn:Hp.
  2: { unfold commit_update. rewrite <- (Hcol (password_hash u)).
       change (set_identity name address (set_password_hash (password_hash u) u))
      with (set_identity name address u).
       destruct (collides _ (users a)); [done|]. split; intros; done. }
  case_bool_decide as Hempty.
  { unfold commit_update. rewrite <- (Hcol (password_hash u)).
    change (set_identity name address (set_password_hash (password_hash u) u))
      with (set_identity name address u).
    destruct (collides _ (users a)); [done|]. split; intros; done. }
  case_bool_decide as Hconfirm; unfold commit_update.
  - rewrite <- (Hcol (Some (generate_password_hash (pw_salt env) p))).
    destruct (collides _ (users a)); [done|]. split; intros; done.
  - rewrite <- (Hcol (password_hash u)).
    change (set_identity name address (set_password_hash (password_hash u) u))
      with (set_identity name address u).
    destruct (collides _ (users a)); [done|]. split; intros; done.
Qed.

(** *** The settings page *)

Lemma replace_row_self u table :
  NoDup (id <$> table) → u ∈ table → replace_row u table = table.
Proof.
  intros Hnd Hin. rewrite (replace_row_spec u u) by done.
  rewrite <- (list_fmap_id table) at 2. apply list_fmap_ext.
  intros i v _. by case_bool_decide as Hv; [subst v|].
Qed.

Lemma settings_post req a key u :
  session_user_id (session a) = Some key → get key (users a) = Some u →
  method req = POST →
  settings req a
  = inr (Redirect "settings",
         flash "Settings saved successfully" "success"
               (set_users (replace_row (set_prefs (form_settings (form req)) u)
                                       (users a)) a)).
Proof. intros Hk Hg Hm. unfold settings. by rewrite Hk, Hm, Hg. Qed.

(** X18. Saving the settings.  For a logged-in user a POST replaces the
    settings of the row of the session by those read from the form, whatever
    they were: a box missing from the form is stored as off.  No other row
    and no other column changes, the session and the mails stay, and posting
    the same form again changes nothing more. *)
Theorem settings_post_overwrites req a key u :
  table_ok (users a) →
  session_user_id (session a) = Some key → get key (users a) = Some u →
  method req = POST →
  ∃ a',
    settings req a = inr (Redirect "settings", a') ∧
    logged_in a' = logged_in a ∧ outbox a' = outbox a ∧
    users a' = (λ v, if bool_decide (v = u)
                     then set_prefs (form_settings (form req)) u else v)
                 <$> users a ∧
    get key (users a') = Some (set_prefs (form_settings (form req)) u) ∧
    ∀ resp a'', settings req a' = inr (resp, a'') → users a'' = users a'.
Proof.
  intros Hok Hk Hg Hm. pose proof Hg as [Hin Hid]%get_Some.
  pose proof Hok as (Hi & _ & _).
  set (u' := set_prefs (form_settings (form req)) u).
  assert (Hspec : replace_row u' (users a)
                  = (λ v, if bool_decide (v = u) then u' else v) <$> users a)
    by by apply replace_row_spec.
  assert (Hin' : u' ∈ replace_row u' (users a)).
  { rewrite Hspec. apply list_elem_of_fmap. exists u.
    by rewrite bool_decide_eq_true_2. }
  assert (Hi' : NoDup (id <$> replace_row u' (users a)))
    by by rewrite replace_row_ids.
  assert (Hg' : get key (replace_row u' (users a)) = Some u').
  { rewrite <- Hid. by apply (get_elem _ u'). }
  eexists. split; [by apply (settings_post _ _ key u)|]. cbn [users flash set_users].
  split; [done|]. split; [done|]. split; [done|]. split; [done|].
  intros resp a''. rewrite (settings_post _ _ key u'); [|done|exact Hg'|done].
  intros [= _ <-]. cbn [users flash set_users].
  by apply replace_row_self.
Qed.

(** *** Sending the confirmation again *)

Lemma resend_confirmation_cases env req a resp a' :
  resend_confirmation env req a = inr (resp, a') →
  users a' = users a ∧ logged_in a' = logged_in a ∧
  (outbox a' = outbox a ∨
   ∃ u, u ∈ users a ∧ is_verified u = false ∧
        method req = POST ∧ mail_up env = true ∧
        form req !! "email" = Some (email u) ∧
        outbox a' = outbox a ++
          [mkMessage "Confirm your FreeLytix account" [email u]
                     (ClickToConfirm (dumps (email u) (now env)))]).
Proof.
  unfold resend_confirmation. destruct (method req) eqn:Hm.
  { intros [= <- <-]. split; [done|]. split; [done|]. by left. }
  destruct (form req !! "email") as [address|] eqn:He.
  2: { intros [= <- <-]. split; [done|]. split; [done|]. by left. }
  destruct (find_by_email (Some address) (users a)) as [u|] eqn:Hf.
  2: { intros [= <- <-]. split; [done|]. split; [done|]. by left. }
  apply find_by_email_Some in Hf as [Hin <-].
  destruct (is_verified u) eqn:Hv.
  { intros [= <- <-]. split; [done|]. split; [done|]. by left. }
  destruct (mail_up env) eqn:Hup; intros [= <- <-];
    (split; [done|]); (split; [done|]); [|by left].
  right. by exists u.
Qed.

(** X19. [resend_confirmation] always returns and never changes the table or
    the session keys.  It sends at most one mail, and only on a POST that
    names the address of an unverified row while the mail server accepts
    mail: the mail goes to that address with a token signed now for it.  For
    a verified or unknown address nothing is sent. *)
Theorem resend_confirmation_outcomes env req a :
  ∃ resp a',
    resend_confirmation env req a = inr (resp, a') ∧
    users a' = users a ∧ logged_in a' = logged_in a ∧
    (outbox a' = outbox a ∨
     ∃ u, u ∈ users a ∧ is_verified u = false ∧
          method req = POST ∧ mail_up env = true ∧
          form req !! "email" = Some (email u) ∧
          outbox a' = outbox a ++
            [mkMessage "Confirm your FreeLytix account" [email u]
                       (ClickToConfirm (dumps (email u) (now env)))]).
Proof.
  destruct (resend_confirmation env req a) as [e|[resp a']] eqn:E.
  - exfalso. revert E. unfold resend_confirmation.
    destruct (method req); [done|].
    destruct (form req !! "email"); [|done].
    destruct (find_by_email _ _); [|done].
    destruct (is_verified _); [done|]. by destruct (mail_up env).
  - exists resp, a'. split; [done|]. exact (resend_confirmation_cases _ _ _ _ _ E).
Qed.

(** *** Invariants of the handlers *)

Lemma verified_more_ids l l' :
  Forall2 verified_more l l' → id <$> l' = id <$> l.
Proof.
  induction 1 as [|v v' l l' Hv _ IH]; [done|]. rewrite !fmap_cons, IH.
  by destruct Hv as [->|[_ ->]].
Qed.

Lemma session_ok_transfer a a' :
  session_ok a →
  session_user_id (session a') = session_user_id (session a) →
  (∀ k, k ∈ id <$> users a → k ∈ id <$> users a') →
  session_ok a'.
Proof.
  unfold session_ok. intros Hok -> Hids.
  destruct (session_user_id (session a)); [|done].
  apply get_is_Some, Hids, get_is_Some, Hok.
Qed.

(** X20. The constraints of the table hold after every handler that returns:
    keys, names and addresses stay unique, and a session that names a row
    still names one.  So in states the handlers can reach, [profile] and
    [settings] never find [None] where they expect the user. *)
Theorem handlers_keep_invariants env req token a :
  table_ok (users a) → session_ok a →
  (∀ r, register env req a = inr r ∨ confirm_email env token a = inr r ∨
        login req a = inr r ∨ resend_confirmation env req a = inr r ∨
        logout a = inr r ∨ profile env req a = inr r ∨
        settings req a = inr r ∨ about a = inr r →
        table_ok (users r.2) ∧ session_ok r.2) ∧
  profile env req a ≠ inl AttributeError ∧
  settings req a ≠ inl AttributeError.
Proof.
  intros Hok Hs. split; [|split].
  - intros [resp a'] Hr. cbn [snd].
    destruct Hr as [Hr|[Hr|[Hr|[Hr|[Hr|[Hr|[Hr|Hr]]]]]]].
    + apply register_cases in Hr as [Hl [[Hu _]|(u & Hu & Hrest)]].
      * rewrite Hu. split; [done|].
        apply (session_ok_transfer a); [done|by injection Hl|by rewrite Hu].
      * destruct Hrest as (_ & _ & _ & _ & _ & Hid & Hn & He & _).
        rewrite Hu. split; [by apply table_ok_app|].
        apply (session_ok_transfer a); [done|by injection Hl|].
        intros k Hk. rewrite Hu, fmap_app. apply elem_of_app. by left.
    + destruct (confirm_email_cases env token a Hok)
        as (resp' & a1 & Hc & Hl & _ & Hok' & Hall & _).
      rewrite Hc in Hr. injection Hr as _ <-. split; [done|].
      apply (session_ok_transfer a); [done|by injection Hl|].
      intros k Hk. by rewrite (verified_more_ids _ _ Hall).
    + apply login_cases in Hr as (Hu & _ & [[_ Hl]|(u & h & p & _ & _ & Hin & _ & _ & _ & _ & _ & Hl)]).
      * rewrite Hu. split; [done|].
        apply (session_ok_transfer a); [done|by injection Hl|by rewrite Hu].
      * rewrite Hu. split; [done|]. unfold session_ok.
        injection Hl as Hkey _. rewrite Hkey, Hu.
        apply get_is_Some, list_elem_of_fmap. by exists u.
    + apply resend_confirmation_cases in Hr as (Hu & Hl & _).
      rewrite Hu. split; [done|].
      apply (session_ok_transfer a); [done|by injection Hl|by rewrite Hu].
    + injection Hr as _ <-. by split.
    + apply profile_cases in Hr as (Hl & _ & [Hu|Hch]).
      * rewrite Hu. split; [done|].
        apply (session_ok_transfer a); [done|by injection Hl|by rewrite Hu].
      * destruct Hch as (key & u & name & address & h & _ & _ & _ & _ & _ & Hc & Hu & _).
        rewrite Hu. split; [by apply table_ok_replace|].
        apply (session_ok_transfer a); [done|by injection Hl|].
        intros k Hk. by rewrite Hu, replace_row_ids.
    + revert Hr. unfold settings.
      destruct (session_user_id (session a)) as [key|] eqn:Hk.
      2: { intros [= _ <-]. split; [done|]. unfold session_ok. cbn. by rewrite Hk. }
      destruct (method req).
      { intros [= _ <-]. by split. }
      destruct (get key (users a)) as [u|] eqn:Hg; [|done].
      intros [= _ <-]. cbn [users flash set_users].
      apply get_Some in Hg as [Hin Hid]. split.
      * apply table_ok_replace; [done|]. by apply (collides_same_identity u).
      * unfold session_ok. cbn. rewrite Hk.
        apply get_is_Some. rewrite replace_row_ids.
        rewrite <- Hid. apply list_elem_of_fmap. eauto.
    + injection Hr as _ <-. by split.
  - unfold profile. unfold session_ok in Hs.
    destruct (session_user_id (session a)) as [key|]; [|done].
    destruct Hs as [u Hg]. rewrite Hg.
    destruct (method req); [done|].
    destruct (form req !! "new_password"); repeat case_bool_decide;
      destruct (form req !! "username"); destruct (form req !! "email");
      try done; unfold commit_update; by destruct (collides _ _).
  - unfold settings. unfold session_ok in Hs.
    destruct (session_user_id (session a)) as [key|]; [|done].
    destruct Hs as [u Hg]. rewrite Hg. by destruct (method req).
Qed.

End HandlerFacts.

(** *** Evaluations on concrete states *)

Lemma two_users_ok : table_ok (users two_users).
Proof. repeat split; apply (bool_decide_unpack _); by vm_compute. Qed.

Lemma register_outcomes_witness :
  ∃ resp a',
    @register salted_plain ticked_tokens env_up eve_registers two_users
    = inr (resp, a') ∧
    logged_in a' = logged_in two_users.
Proof.
  destruct (@register_outcomes salted_plain ticked_tokens env_up eve_registers two_users)
    as [Htotal Hcases].
  destruct Htotal as [[resp a'] Hr]; [by eexists|by eexists|by eexists|].
  exists resp, a'. split; [exact Hr|]. exact (proj1 (Hcases resp a' Hr)).
Defined.

Lemma register_mail_refused_witness :
  ∃ a', @register salted_plain ticked_tokens env_down eve_registers two_users
        = inr (Redirect "login", a') ∧ users a' = users two_users.
Proof.
  destruct (@register_mail_refused salted_plain ticked_tokens env_down eve_registers
              two_users "eve" "eve@example.org" "pw")
    as (a' & Hr & Hu & _); try reflexivity.
  - apply (bool_decide_unpack _). by vm_compute.
  - apply (bool_decide_unpack _). by vm_compute.
  - by exists a'.
Defined.

Lemma login_outcomes_witness :
  ∃ resp a', @login salted_plain ada_logs_in two_users = inr (resp, a') ∧
             users a' = users two_users.
Proof.
  assert (Hr : ∃ resp a', @login salted_plain ada_logs_in two_users = inr (resp, a'))
    by (by eexists _, _).
  destruct Hr as (resp & a' & Hr). exists resp, a'. split; [exact Hr|].
  exact (proj1 (@login_outcomes salted_plain ada_logs_in two_users resp a' Hr)).
Defined.

Lemma confirm_email_outcomes_witness :
  table_ok (users two_users) ∧
  ∃ resp a', @confirm_email ticked_tokens env_later
               (@dumps ticked_tokens "bob@example.org" 100) two_users
             = inr (resp, a') ∧ table_ok (users a').
Proof.
  split; [exact two_users_ok|].
  destruct (@confirm_email_outcomes ticked_tokens env_later
              (@dumps ticked_tokens "bob@example.org" 100) two_users two_users_ok)
    as (resp & a' & Hr & _ & _ & Hok & _).
  by exists resp, a'.
Defined.

Lemma register_confirm_login_witness :
  ∃ a1 a2 a3 a4,
    @register salted_plain ticked_tokens env_up eve_registers two_users
    = inr (Redirect "login", a1) ∧
    @login salted_plain eve_logs_in a1 = inr (Render "login.html" None, a2) ∧
    @confirm_email ticked_tokens env_later
      (@dumps ticked_tokens "eve@example.org" 100) a2 = inr (Redirect "login", a3) ∧
    @login salted_plain eve_logs_in a3 = inr (Redirect "home", a4) ∧
    logged_in a4 = (Some 3, Some "eve").
Proof.
  destruct (@register_confirm_login salted_plain ticked_tokens env_up env_later
              eve_registers eve_logs_in two_users "eve" "eve@example.org" "pw")
    as (a1 & a2 & a3 & a4 & msg & H1 & _ & _ & H2 & _ & H3 & H4 & H5 & _);
    try reflexivity.
  - exact two_users_ok.
  - apply (bool_decide_unpack _). by vm_compute.
  - apply (bool_decide_unpack _). by vm_compute.
  - by exists a1, a2, a3, a4.
Defined.

Lemma profile_outcomes_witness :
  ∃ resp a', @profile salted_plain env_up ada_renames ada_logged_in = inr (resp, a') ∧
             logged_in a' = logged_in ada_logged_in.
Proof.
  assert (Hr : ∃ resp a',
    @profile salted_plain env_up ada_renames ada_logged_in = inr (resp, a'))
    by (by eexists _, _).
  destruct Hr as (resp & a' & Hr). exists resp, a'. split; [exact Hr|].
  exact (proj1 (@profile_outcomes salted_plain env_up ada_renames ada_logged_in
                  resp a' Hr)).
Defined.

Lemma profile_password_mismatch_witness :
  ∃ a', @profile salted_plain env_up ada_renames ada_logged_in
        = inr (Redirect "profile", a') ∧
        users a' = replace_row (set_identity "countess" "ada@example.org" ada)
                               (users ada_logged_in).
Proof.
  destruct (@profile_password_mismatch salted_plain env_up ada_renames ada_logged_in
              1 ada "countess" "ada@example.org" "engine")
    as (a' & Hr & Hu & _); try reflexivity; try done.
  by exists a'.
Defined.

Lemma profile_integrity_error_witness :
  @profile salted_plain env_up ada_takes_bob ada_logged_in = inl IntegrityError.
Proof.
  apply (@profile_integrity_error salted_plain env_up ada_takes_bob ada_logged_in
           1 ada "bob" "ada@example.org"); try reflexivity.
  exists bob. split; [|split; [done|by left]].
  apply (bool_decide_unpack _). by vm_compute.
Defined.

Lemma settings_post_overwrites_witness :
  table_ok (users ada_logged_in) ∧
  ∃ a', settings ada_goes_dark ada_logged_in = inr (Redirect "settings", a') ∧
        get 1 (users a')
        = Some (set_prefs (form_settings (form ada_goes_dark)) ada).
Proof.
  split; [exact two_users_ok|].
  destruct (settings_post_overwrites ada_goes_dark ada_logged_in 1 ada)
    as (a' & Hr & _ & _ & _ & Hg & _); try reflexivity.
  - exact two_users_ok.
  - by exists a'.
Defined.

Lemma handlers_keep_invariants_witness :
  table_ok (users ada_logged_in) ∧ session_ok ada_logged_in ∧
  @profile salted_plain env_up ada_renames ada_logged_in ≠ inl AttributeError.
Proof.
  assert (Hs : session_ok ada_logged_in) by (by eexists).
  split; [exact two_users_ok|]. split; [exact Hs|].
  exact (proj1 (proj2 (@handlers_keep_invariants salted_plain ticked_tokens env_up
                         ada_renames EmptyString ada_logged_in two_users_ok Hs))).
Defined.

End AccountsFacts.
